(** * Vector data extraction from PDF / PostScript plots

    A shallow embedding of [ExtractData.py] (the container-aware extractor)
    and [ExtractDataPS.py] (the plain PostScript extractor): tokenizer, path
    assembler, segment classifier, calibration mapper and the command-line
    handling of the calibration bounds.

    Python floats are IEEE binary64 numbers, modelled by Rocq's primitive
    [float]. Python strings are modelled by [string], one character per
    Latin-1 code point. *)

From Stdlib Require Import ZArith List Bool String Ascii Floats Lia.
Import ListNotations.

Set Warnings "-inexact-float".

#[local] Open Scope string_scope.
#[local] Open Scope list_scope.
#[local] Open Scope bool_scope.
#[local] Open Scope nat_scope.

(** ** Python builtins used by both scripts *)

Module Py.

(** The exceptions the scripts can meet. *)
Inductive exn : Type :=
| ValueError
| TypeError
| ZeroDivisionError
| OverflowError.

(** How a piece of code ends: it returns, it calls [sys.exit(code)], or an
    exception escapes. *)
Inductive outcome (A : Type) : Type :=
| Returned (a : A)
| SysExit (code : Z)
| Raised (e : exn).
Arguments Returned {A} a.
Arguments SysExit {A} code.
Arguments Raised {A} e.

(** What the scripts print, one constructor per [print] call. *)
Inductive message : Type :=
| ReadingFrom                         (* "Reading from: ..." *)
| PdfDetected                         (* "  > PDF detected. Scanning internal streams (heuristic)..." *)
| WarnNoVectorData                    (* "  > Warning: No vector data streams found. ..." *)
| ErrFileNotFound                     (* "Error: File ... not found." *)
| DetectedPageBounds (x0 x1 y0 y1 : float)  (* "Detected Page Bounds: X[..:..] Y[..:..]" *)
| FilteredOut (n : Z)                 (* "Filtered out n short segments (grid/axes)." *)
| ErrLogLimits                        (* "Error: User limits must be positive for log scale." *)
| DoneWrote (n : nat)                 (* "Done. Wrote n points to '...'" *)
| ErrAllBounds.                       (* "Error: ... you must provide ALL bounds: ..." *)

(** A computation that prints and then ends in an [outcome]. *)
Definition run (A : Type) : Type := (list message * outcome A)%type.

Definition ret {A} (a : A) : run A := ([], Returned a).
Definition print (m : message) : run unit := ([m], Returned tt).
Definition raise {A} (e : exn) : run A := ([], Raised e).
Definition sys_exit {A} (code : Z) : run A := ([], SysExit code).

Definition bind {A B} (m : run A) (k : A -> run B) : run B :=
  match snd m with
  | Returned a => (fst m ++ fst (k a), snd (k a))
  | SysExit c => (fst m, SysExit c)
  | Raised e => (fst m, Raised e)
  end.

Definition lift {A} (o : outcome A) : run A := ([], o).

Fixpoint mapM {A B} (f : A -> run B) (l : list A) : run (list B) :=
  match l with
  | [] => ret []
  | a :: l' =>
      bind (f a) (fun b => bind (mapM f l') (fun bs => ret (b :: bs)))
  end.

(** *** Strings *)

Definition code (c : ascii) : nat := nat_of_ascii c.

(** [str.isspace] on a Latin-1 character: the characters [str.split()]
    splits at. *)
Definition isspace (c : ascii) : bool :=
  let n := code c in
  (((9 <=? n) && (n <=? 13)) || ((28 <=? n) && (n <=? 32))
   || (n =? 133) || (n =? 160))%nat.

(** The line boundaries of [str.splitlines]. *)
Definition is_linebreak (c : ascii) : bool :=
  let n := code c in
  (((10 <=? n) && (n <=? 13)) || ((28 <=? n) && (n <=? 30)) || (n =? 133))%nat.

Definition flush (cur : string) : list string :=
  match cur with EmptyString => [] | _ => [cur] end.

Definition snoc (s : string) (c : ascii) : string := s ++ String c EmptyString.

(** [s.split()]: the maximal runs of non-space characters. [cur] is the run
    being read. *)
Fixpoint split_from (cur : string) (s : string) : list string :=
  match s with
  | EmptyString => flush cur
  | String c s' =>
      if isspace c then flush cur ++ split_from EmptyString s'
      else split_from (snoc cur c) s'
  end.

Definition split (s : string) : list string := split_from EmptyString s.

(** [s.splitlines()]: a carriage return followed by a line feed is one
    boundary; no empty last line after a final boundary. *)
Fixpoint splitlines_from (cur : string) (s : string) : list string :=
  match s with
  | EmptyString => flush cur
  | String c s' =>
      if is_linebreak c then
        cur :: match s' with
               | String c' s'' =>
                   if ((code c =? 13) && (code c' =? 10))%nat
                   then splitlines_from EmptyString s''
                   else splitlines_from EmptyString s'
               | EmptyString => []
               end
      else splitlines_from (snoc cur c) s'
  end.

Definition splitlines (s : string) : list string := splitlines_from EmptyString s.

(** [s.split('%')[0]]: what stands before the first percent sign. *)
Fixpoint before_percent (s : string) : string :=
  match s with
  | EmptyString => EmptyString
  | String c s' => if (code c =? 37)%nat then EmptyString else String c (before_percent s')
  end.

(** [f.readlines()] of a text file: the lines, each with its final line
    feed. *)
Fixpoint readlines_from (cur : string) (s : string) : list string :=
  match s with
  | EmptyString => flush cur
  | String c s' =>
      if (code c =? 10)%nat then snoc cur c :: readlines_from EmptyString s'
      else readlines_from (snoc cur c) s'
  end.

Definition readlines (s : string) : list string := readlines_from EmptyString s.

Fixpoint lstrip (s : string) : string :=
  match s with
  | EmptyString => EmptyString
  | String c s' => if isspace c then lstrip s' else s
  end.

Fixpoint rstrip (s : string) : string :=
  match s with
  | EmptyString => EmptyString
  | String c s' =>
      match rstrip s' with
      | EmptyString => if isspace c then EmptyString else String c EmptyString
      | r => String c r
      end
  end.

(** [s.strip()] *)
Definition strip (s : string) : string := rstrip (lstrip s).

(** [token in [...]] *)
Definition mem (token : string) (l : list string) : bool :=
  existsb (String.eqb token) l.

(** *** Floats *)

(** Truth value of an optional float, as [any([...])] reads it: [None] and
    zero (of either sign) are false, every other float (NaN too) is true. *)
Definition truthy (v : option float) : bool :=
  match v with
  | None => false
  | Some x => negb (x =? 0)%float
  end.

(** [x / y] on floats: Python refuses a zero divisor. *)
Definition truediv (x y : float) : outcome float :=
  if (y =? 0)%float then Raised ZeroDivisionError else Returned (x / y)%float.

(** The binary64 number nearest to [num / den] (ties to even), negated when
    [neg]. *)
Definition nearest_float (neg : bool) (num den : positive) : float :=
  SF2Prim (SFdiv prec emax (S754_finite neg num 0%Z) (S754_finite false den 0%Z)).

Definition digit_of (c : ascii) : option Z :=
  let n := code c in
  if ((48 <=? n) && (n <=? 57))%nat then Some (Z.of_nat (n - 48)) else None.

(** [digit (["_"] digit)*], read after a first digit: the value so far, the
    number of digits read, and what is left. *)
Fixpoint more_digits (acc : Z) (n : Z) (s : string) : Z * Z * string :=
  match s with
  | String c s' =>
      match digit_of c with
      | Some d => more_digits (10 * acc + d)%Z (n + 1)%Z s'
      | None =>
          if (code c =? 95)%nat then
            match s' with
            | String c' s'' =>
                match digit_of c' with
                | Some d => more_digits (10 * acc + d)%Z (n + 1)%Z s''
                | None => (acc, n, s)
                end
            | EmptyString => (acc, n, s)
            end
          else (acc, n, s)
      end
  | EmptyString => (acc, n, s)
  end.

(** [digitpart], continuing the value [acc]; [None] when no digit stands
    first. *)
Definition digitpart (acc : Z) (s : string) : option (Z * Z * string) :=
  match s with
  | String c s' =>
      match digit_of c with
      | Some d => Some (more_digits (10 * acc + d)%Z 1%Z s')
      | None => None
      end
  | EmptyString => None
  end.

(** An optional sign. *)
Definition sign (s : string) : bool * string :=
  match s with
  | String c s' =>
      if (code c =? 45)%nat then (true, s')
      else if (code c =? 43)%nat then (false, s')
      else (false, s)
  | EmptyString => (false, s)
  end.

(** The exponent part: nothing, or [e] or [E], an optional sign and a
    [digitpart] up to the end of the string. *)
Definition exponent (s : string) : option Z :=
  match s with
  | EmptyString => Some 0%Z
  | String c s' =>
      if ((code c =? 101) || (code c =? 69))%nat then
        let (neg, s'') := sign s' in
        match digitpart 0%Z s'' with
        | Some (e, _, EmptyString) => Some (if neg then (- e)%Z else e)
        | _ => None
        end
      else None
  end.

(** [digits * 10 ^ scale] as a float. *)
Definition decimal (neg : bool) (digits scale : Z) : float :=
  match digits with
  | Zpos m =>
      match scale with
      | Zneg k => nearest_float neg m (Pos.pow 10 k)
      | Z0 => nearest_float neg m 1
      | Zpos k => nearest_float neg (m * Pos.pow 10 k)%positive 1
      end
  | _ => if neg then neg_zero else zero
  end.

Definition lower (c : ascii) : ascii :=
  let n := code c in
  if ((65 <=? n) && (n <=? 90))%nat then ascii_of_nat (n + 32) else c.

Fixpoint lowercase (s : string) : string :=
  match s with
  | EmptyString => EmptyString
  | String c s' => String (lower c) (lowercase s')
  end.

(** [floatnumber]: [[digitpart] "." digitpart | digitpart ["."]], then the
    exponent. *)
Definition floatnumber (neg : bool) (s : string) : option float :=
  match digitpart 0%Z s with
  | Some (i, _, String c rest) =>
      if (code c =? 46)%nat then
        match digitpart i rest with
        | Some (m, k, rest') =>
            option_map (fun e => decimal neg m (e - k)%Z) (exponent rest')
        | None => option_map (fun e => decimal neg i e) (exponent rest)
        end
      else option_map (fun e => decimal neg i e) (exponent (String c rest))
  | Some (i, _, EmptyString) => Some (decimal neg i 0%Z)
  | None =>
      match s with
      | String c rest =>
          if (code c =? 46)%nat then
            match digitpart 0%Z rest with
            | Some (m, k, rest') =>
                option_map (fun e => decimal neg m (e - k)%Z) (exponent rest')
            | None => None
            end
          else None
      | EmptyString => None
      end
  end.

(** [float(token)] on an ASCII token without blanks: [None] stands for the
    [ValueError] of a token that is no number. *)
Definition float_of_string (token : string) : option float :=
  let (neg, s) := sign token in
  let l := lowercase s in
  if (l =? "inf")%string || (l =? "infinity")%string then
    Some (if neg then neg_infinity else infinity)
  else if (l =? "nan")%string then Some nan
  else floatnumber neg s.

End Py.

Import Py.

(** ** Data shared by both scripts *)

Definition point : Type := (float * float)%type.
Definition segment : Type := list point.

(** [ps_bounds]: the page bounding box, every entry [None] until a first
    coordinate is seen. *)
Record bounds : Type := Bounds {
  xmin : option float;
  xmax : option float;
  ymin : option float;
  ymax : option float
}.

(** [user_limits]: the calibration the command line asked for. *)
Record limits : Type := Limits {
  user_xmin : float;
  user_xmax : float;
  user_ymin : float;
  user_ymax : float;
  logx : bool;
  logy : bool
}.

(** The parsed command line: each bound is [None] unless its option was
    given. *)
Record arguments : Type := Arguments {
  arg_xmin : option float;
  arg_xmax : option float;
  arg_ymin : option float;
  arg_ymax : option float;
  arg_logx : bool;
  arg_logy : bool
}.

(** What the path assembler holds while it reads the operators. *)
Record state : Type := State {
  all_segments : list segment;
  current_segment : segment;
  ps_bounds : bounds;
  current_x : float;
  current_y : float
}.

Definition no_bounds : bounds := Bounds None None None None.

Definition initial : state := State [] [] no_bounds 0%float 0%float.

(** What a run wrote to its output file: the converted points of every kept
    segment, and [total_points]. *)
Record report : Type := Report {
  written : list segment;
  total_points : nat
}.

(** [if ps_bounds[k] is None or v < ps_bounds[k]: ps_bounds[k] = v] *)
Definition keep_least (v : float) (b : option float) : option float :=
  match b with
  | None => Some v
  | Some m => if (v <? m)%float then Some v else Some m
  end.

(** [if ps_bounds[k] is None or v > ps_bounds[k]: ps_bounds[k] = v] *)
Definition keep_greatest (v : float) (b : option float) : option float :=
  match b with
  | None => Some v
  | Some m => if (m <? v)%float then Some v else Some m
  end.

(** [update_bounds(x, y)], the same in both scripts. *)
Definition update_bounds (b : bounds) (x y : float) : bounds :=
  Bounds (keep_least x (xmin b)) (keep_greatest x (xmax b))
         (keep_least y (ymin b)) (keep_greatest y (ymax b)).

Definition set_bounds (st : state) (b : bounds) : state :=
  State (all_segments st) (current_segment st) b (current_x st) (current_y st).

Definition set_cursor (st : state) (x y : float) : state :=
  State (all_segments st) (current_segment st) (ps_bounds st) x y.

Definition set_current_x (st : state) (x : float) : state :=
  State (all_segments st) (current_segment st) (ps_bounds st) x (current_y st).

Definition set_current_y (st : state) (y : float) : state :=
  State (all_segments st) (current_segment st) (ps_bounds st) (current_x st) y.

(** [current_segment.append(p)] *)
Definition append_point (st : state) (p : point) : state :=
  State (all_segments st) (current_segment st ++ [p]) (ps_bounds st)
        (current_x st) (current_y st).

(** [all_segments.append(seg)] *)
Definition append_segment (st : state) (seg : segment) : state :=
  State (all_segments st ++ [seg]) (current_segment st) (ps_bounds st)
        (current_x st) (current_y st).

(** [current_segment = []] *)
Definition clear_current (st : state) : state :=
  State (all_segments st) [] (ps_bounds st) (current_x st) (current_y st).

(** [if current_segment: all_segments.append(current_segment); current_segment = []] *)
Definition close_segment (st : state) : state :=
  match current_segment st with
  | [] => st
  | seg => clear_current (append_segment st seg)
  end.

(** [if not current_segment: current_segment.append((current_x, current_y))] *)
Definition seed (st : state) : state :=
  match current_segment st with
  | [] => append_point st (current_x st, current_y st)
  | _ => st
  end.

(** [if not current_segment: current_segment.append((current_x, current_y));
    update_bounds(current_x, current_y)] *)
Definition seed_bounded (st : state) : state :=
  match current_segment st with
  | [] =>
      let st' := append_point st (current_x st, current_y st) in
      set_bounds st' (update_bounds (ps_bounds st') (current_x st) (current_y st))
  | _ => st
  end.

(** [data_segments = [seg for seg in all_segments if len(seg) > 10]] *)
Definition data_segments (segs : list segment) : list segment :=
  filter (fun seg => 10 <? List.length seg) segs.

(** The number the scripts print as filtered out:
    [len(all_segments) - len(data_segments)]. *)
Definition filtered_out (segs : list segment) : Z :=
  (Z.of_nat (List.length segs) - Z.of_nat (List.length (data_segments segs)))%Z.

Definition move_tokens : list string := ["m"; "M"; "moveto"].
Definition line_tokens : list string := ["l"; "L"; "lineto"].
Definition relative_tokens : list string := ["V"; "R"; "rmoveto"; "rlineto"].
Definition close_tokens : list string := ["S"; "s"; "stroke"; "h"; "closepath"].

(** ** Calibration: [convert_value], the same in both scripts *)

Section Calibration.

(** [math.log10] on the arguments it accepts, and [10 ** y] on floats
    ([None]: the [OverflowError] of a result out of range). *)
Variable log10 : float -> float.
Variable pow10 : float -> option float.

(** [math.log10(x)]: a [ValueError] for zero and for negative numbers. *)
Definition math_log10 (x : float) : outcome float :=
  if (x <=? 0)%float then Raised ValueError else Returned (log10 x).

Definition convert_value (val ps_min ps_max user_min user_max : float)
    (is_log : bool) : run float :=
  if (ps_max =? ps_min)%float then ret user_min
  else
    bind (lift (truediv (val - ps_min) (ps_max - ps_min))) (fun norm =>
    if is_log then
      match math_log10 user_min with
      | Raised ValueError => bind (print ErrLogLimits) (fun _ => sys_exit 1)
      | Returned log_min =>
          match math_log10 user_max with
          | Raised ValueError => bind (print ErrLogLimits) (fun _ => sys_exit 1)
          | Returned log_max =>
              match pow10 (norm * (log_max - log_min) + log_min) with
              | Some v => ret v
              | None => raise OverflowError
              end
          | o => lift o
          end
      | o => lift o
      end
    else ret (norm * (user_max - user_min) + user_min)%float).

(** The body of the output loop for one point. *)
Definition convert_point (b : float * float * float * float)
    (user_limits : option limits) (p : point) : run point :=
  let '(x0, x1, y0, y1) := b in
  let (x_raw, y_raw) := p in
  match user_limits with
  | Some l =>
      bind (convert_value x_raw x0 x1 (user_xmin l) (user_xmax l) (logx l))
        (fun x_out =>
      bind (convert_value y_raw y0 y1 (user_ymin l) (user_ymax l) (logy l))
        (fun y_out => ret (x_out, y_out)))
  | None => ret (x_raw, y_raw)
  end.

(** Steps 4 to 6 of both scripts: filter, print the page bounds (a
    [TypeError] when an entry is still [None], which [:.1f] cannot format),
    convert and write. *)
Definition filter_and_write (st : state) (user_limits : option limits)
    : run report :=
  let data := data_segments (all_segments st) in
  match xmin (ps_bounds st), xmax (ps_bounds st),
        ymin (ps_bounds st), ymax (ps_bounds st) with
  | Some x0, Some x1, Some y0, Some y1 =>
      bind (print (DetectedPageBounds x0 x1 y0 y1)) (fun _ =>
      bind (print (FilteredOut (filtered_out (all_segments st)))) (fun _ =>
      bind (mapM (mapM (convert_point (x0, x1, y0, y1) user_limits)) data)
        (fun out =>
      let total := List.length (List.concat out) in
      bind (print (DoneWrote total)) (fun _ =>
      ret (Report out total)))))
  | _, _, _, _ => raise TypeError
  end.

(** The [__main__] block of both scripts up to the call of the extractor:
    the calibration asked for, or the fatal error. *)
Definition read_limits (args : arguments) : run (option limits) :=
  if truthy (arg_xmin args) || truthy (arg_xmax args)
     || truthy (arg_ymin args) || truthy (arg_ymax args)
  then
    match arg_xmin args, arg_xmax args, arg_ymin args, arg_ymax args with
    | Some x0, Some x1, Some y0, Some y1 =>
        ret (Some (Limits x0 x1 y0 y1 (arg_logx args) (arg_logy args)))
    | _, _, _, _ => bind (print ErrAllBounds) (fun _ => sys_exit 1)
    end
  else ret None.

End Calibration.

(** ** ExtractData.py: the container-aware extractor *)

Module ExtractData.

(** The input file as the script meets it: whether its extension is [.pdf],
    what [extract_pdf_content] returns for it (the decoded streams, empty
    when none decodes or the file is missing), and its text ([None] when the
    file is missing). *)
Record input_file : Type := InputFile {
  is_pdf : bool;
  pdf_content : string;
  text : option string
}.

Definition get_plot_commands (f : input_file) : run string :=
  if is_pdf f then
    bind (print PdfDetected) (fun _ =>
    let content := pdf_content f in
    bind (match content with
          | EmptyString => print WarnNoVectorData
          | _ => ret tt
          end) (fun _ =>
    ret content))
  else
    match text f with
    | Some content => ret content
    | None => bind (print ErrFileNotFound) (fun _ => sys_exit 1)
    end.

(** Step 2, the tokenizer: every line cut at its first percent sign, then
    split at blanks. *)
Definition tokenize (raw_content : string) : list string :=
  flat_map (fun line => split (before_percent line)) (splitlines raw_content).

Section Assembler.

(** [float(token)]: [None] for the [ValueError] of a token that is no
    number. *)
Variable to_float : string -> option float.

Variable clean_tokens : list string.

(** [clean_tokens[i-k]] *)
Definition back (i k : nat) : string := nth (i - k) clean_tokens EmptyString.

(** One turn of the [while] loop, at index [i]. The arguments are parsed
    before anything is changed, so the [ValueError] of a token that is no
    number leaves the state as it was. *)
Definition step (st : state) (i : nat) : state :=
  let token := nth i clean_tokens EmptyString in
  if mem token move_tokens && (2 <=? i) then
    match to_float (back i 2) with
    | None => st
    | Some x =>
    match to_float (back i 1) with
    | None => st
    | Some y =>
        let st := close_segment st in
        let st := set_cursor st x y in
        set_bounds st (update_bounds (ps_bounds st) x y)
    end end
  else if mem token line_tokens && (2 <=? i) then
    match to_float (back i 2) with
    | None => st
    | Some x =>
    match to_float (back i 1) with
    | None => st
    | Some y =>
        let st := seed st in
        let st := append_point st (x, y) in
        let st := set_cursor st x y in
        set_bounds st (update_bounds (ps_bounds st) x y)
    end end
  else if mem token relative_tokens && (2 <=? i) then
    match to_float (back i 2) with
    | None => st
    | Some dx =>
    match to_float (back i 1) with
    | None => st
    | Some dy =>
        let dest_x := (current_x st + dx)%float in
        let dest_y := (current_y st + dy)%float in
        let st := seed_bounded st in
        let st := append_point st (dest_x, dest_y) in
        let st := set_cursor st dest_x dest_y in
        set_bounds st (update_bounds (ps_bounds st) dest_x dest_y)
    end end
  else if (token =? "re")%string && (4 <=? i) then
    match to_float (back i 4) with
    | None => st
    | Some x =>
    match to_float (back i 3) with
    | None => st
    | Some y =>
    match to_float (back i 2) with
    | None => st
    | Some w =>
    match to_float (back i 1) with
    | None => st
    | Some h =>
        let st := match current_segment st with
                  | [] => st
                  | seg => append_segment st seg
                  end in
        let rect_seg := [(x, y); ((x + w)%float, y);
                         ((x + w)%float, (y + h)%float);
                         (x, (y + h)%float); (x, y)] in
        let st := append_segment st rect_seg in
        let st := clear_current st in
        let st := set_bounds st (update_bounds (ps_bounds st) x y) in
        set_bounds st (update_bounds (ps_bounds st) (x + w)%float (y + h)%float)
    end end end end
  else if mem token close_tokens then close_segment st
  else st.

(** The [while i < len(clean_tokens)] loop, from the state [st]. *)
Definition loop (st : state) : state :=
  fold_left step (seq 0 (List.length clean_tokens)) st.

(** Step 3: the loop from the initial state, then the segment still open
    is closed. *)
Definition assemble : state := close_segment (loop initial).

End Assembler.

Section Extractor.

Variable to_float : string -> option float.
Variable log10 : float -> float.
Variable pow10 : float -> option float.

Definition extract_vector_data (input_file : input_file)
    (user_limits : option limits) : run report :=
  bind (print ReadingFrom) (fun _ =>
  bind (get_plot_commands input_file) (fun raw_content =>
  let clean_tokens := tokenize raw_content in
  filter_and_write log10 pow10 (assemble to_float clean_tokens) user_limits)).

(** The [__main__] block. *)
Definition main (args : arguments) (input_file : input_file) : run report :=
  bind (read_limits args) (fun limits =>
  extract_vector_data input_file limits).

End Extractor.

End ExtractData.

(** ** ExtractDataPS.py: the plain PostScript extractor *)

Module ExtractDataPS.

Definition move_tokens : list string := ["M"; "m"; "moveto"].
Definition relative_tokens : list string := ["V"; "R"; "rmoveto"; "rlineto"].
Definition line_tokens : list string := ["L"; "l"; "lineto"].
Definition stroke_tokens : list string := ["stroke"; "S"].

Section Assembler.

Variable to_float : string -> option float.

(** [tokens[-k]] *)
Definition from_end (tokens : list string) (k : nat) : string :=
  nth (List.length tokens - k) tokens EmptyString.

(** The body of [for line in content] once the line is split. The operator
    is the last token of the line. What was changed before a [ValueError]
    stays changed: a move closes the open segment before it parses its
    arguments, and a line seeds the segment and sets [current_x] before it
    parses the second. *)
Definition exec (st : state) (tokens : list string) : state :=
  match tokens with
  | [] => st
  | _ =>
    let cmd := from_end tokens 1 in
    if mem cmd move_tokens then
      if 3 <=? List.length tokens then
        let st := close_segment st in
        match to_float (from_end tokens 3) with
        | None => st
        | Some x =>
        let st := set_current_x st x in
        match to_float (from_end tokens 2) with
        | None => st
        | Some y =>
        let st := set_current_y st y in
        set_bounds st (update_bounds (ps_bounds st) (current_x st) (current_y st))
        end end
      else st
    else if mem cmd relative_tokens then
      if 3 <=? List.length tokens then
        match to_float (from_end tokens 3) with
        | None => st
        | Some dx =>
        match to_float (from_end tokens 2) with
        | None => st
        | Some dy =>
        let st := seed_bounded st in
        let st := set_current_x st (current_x st + dx)%float in
        let st := set_current_y st (current_y st + dy)%float in
        let st := append_point st (current_x st, current_y st) in
        set_bounds st (update_bounds (ps_bounds st) (current_x st) (current_y st))
        end end
      else st
    else if mem cmd line_tokens then
      if 3 <=? List.length tokens then
        let st := seed_bounded st in
        match to_float (from_end tokens 3) with
        | None => st
        | Some x =>
        let st := set_current_x st x in
        match to_float (from_end tokens 2) with
        | None => st
        | Some y =>
        let st := set_current_y st y in
        let st := append_point st (current_x st, current_y st) in
        set_bounds st (update_bounds (ps_bounds st) (current_x st) (current_y st))
        end end
      else st
    else if mem cmd stroke_tokens then close_segment st
    else st
  end.

(** [line = line.strip(); tokens = line.split()], then the body. *)
Definition step (st : state) (line : string) : state :=
  exec st (split (strip line)).

(** Step 2: the loop over the lines, then the segment still open is
    closed. *)
Definition assemble (content : list string) : state :=
  close_segment (fold_left step content initial).

End Assembler.

Section Extractor.

Variable to_float : string -> option float.
Variable log10 : float -> float.
Variable pow10 : float -> option float.

(** [input_file]: the text of the file, [None] when it is missing. *)
Definition extract_ps_data (input_file : option string)
    (user_limits : option limits) : run report :=
  bind (print ReadingFrom) (fun _ =>
  match input_file with
  | None => bind (print ErrFileNotFound) (fun _ => sys_exit 1)
  | Some text =>
      let content := readlines text in
      filter_and_write log10 pow10 (assemble to_float content) user_limits
  end).

(** The [__main__] block. *)
Definition main (args : arguments) (input_file : option string) : run report :=
  bind (read_limits args) (fun limits =>
  extract_ps_data input_file limits).

End Extractor.

End ExtractDataPS.

(** ** Running the scripts on decimal tokens *)

Definition vec_assemble (raw_content : string) : state :=
  ExtractData.assemble float_of_string (ExtractData.tokenize raw_content).

Definition ps_assemble (text : string) : state :=
  ExtractDataPS.assemble float_of_string (readlines text).

(** ** Notions the statements below are written with *)

(** [l1] is [l2] with some elements left out, the others in their order. *)
Inductive subsequence {A : Type} : list A -> list A -> Prop :=
| subsequence_nil : subsequence [] []
| subsequence_skip (x : A) (l1 l2 : list A) :
    subsequence l1 l2 -> subsequence l1 (x :: l2)
| subsequence_keep (x : A) (l1 l2 : list A) :
    subsequence l1 l2 -> subsequence (x :: l1) (x :: l2).

(** The segments of at most ten points. *)
Fixpoint count_short (segs : list segment) : nat :=
  match segs with
  | [] => 0
  | seg :: segs' =>
      (if List.length seg <=? 10 then 1 else 0) + count_short segs'
  end.

(** A point lies outside the page bounding box. *)
Definition outside (b : bounds) (p : point) : bool :=
  match xmin b, xmax b, ymin b, ymax b with
  | Some x0, Some x1, Some y0, Some y1 =>
      ((fst p <? x0) || (x1 <? fst p) || (snd p <? y0) || (y1 <? snd p))%float
  | _, _, _, _ => true
  end.

(** The drawing operators, with their parsed arguments. *)
Inductive operator : Type :=
| Move (x y : float)
| Line (x y : float)
| Relative (dx dy : float)
| Rectangle (x y w h : float)
| Close
| Ignored.

(** What [ExtractData.py] does for each operator. *)
Definition perform (st : state) (op : operator) : state :=
  match op with
  | Move x y =>
      let st := close_segment st in
      let st := set_cursor st x y in
      set_bounds st (update_bounds (ps_bounds st) x y)
  | Line x y =>
      let st := seed st in
      let st := append_point st (x, y) in
      let st := set_cursor st x y in
      set_bounds st (update_bounds (ps_bounds st) x y)
  | Relative dx dy =>
      let dest_x := (current_x st + dx)%float in
      let dest_y := (current_y st + dy)%float in
      let st := seed_bounded st in
      let st := append_point st (dest_x, dest_y) in
      let st := set_cursor st dest_x dest_y in
      set_bounds st (update_bounds (ps_bounds st) dest_x dest_y)
  | Rectangle x y w h =>
      let st := match current_segment st with
                | [] => st
                | seg => append_segment st seg
                end in
      let st := append_segment st
                  [(x, y); ((x + w)%float, y); ((x + w)%float, (y + h)%float);
                   (x, (y + h)%float); (x, y)] in
      let st := clear_current st in
      let st := set_bounds st (update_bounds (ps_bounds st) x y) in
      set_bounds st (update_bounds (ps_bounds st) (x + w)%float (y + h)%float)
  | Close => close_segment st
  | Ignored => st
  end.

(** Two parsed arguments. *)
Definition pair_of (to_float : string -> option float) (a b : string)
    : option (float * float) :=
  match to_float a, to_float b with
  | Some x, Some y => Some (x, y)
  | _, _ => None
  end.

(** The operator that takes effect at index [i] of the token stream:
    [Ignored] for a token that is no operator and for an operator whose
    arguments are missing or no numbers. *)
Definition operator_at (to_float : string -> option float)
    (tokens : list string) (i : nat) : operator :=
  let token := nth i tokens EmptyString in
  let pair := pair_of to_float (ExtractData.back tokens i 2)
                (ExtractData.back tokens i 1) in
  if mem token move_tokens && (2 <=? i) then
    match pair with Some (x, y) => Move x y | None => Ignored end
  else if mem token line_tokens && (2 <=? i) then
    match pair with Some (x, y) => Line x y | None => Ignored end
  else if mem token relative_tokens && (2 <=? i) then
    match pair with Some (x, y) => Relative x y | None => Ignored end
  else if (token =? "re")%string && (4 <=? i) then
    match pair_of to_float (ExtractData.back tokens i 4)
            (ExtractData.back tokens i 3), pair with
    | Some (x, y), Some (w, h) => Rectangle x y w h
    | _, _ => Ignored
    end
  else if mem token close_tokens then Close
  else Ignored.

(** A segment is open. *)
Definition is_open (st : state) : bool :=
  match current_segment st with [] => false | _ => true end.

Definition one_if (b : bool) : nat := if b then 1 else 0.

(** The state of [ExtractData.py] before it reads the token at index [i]. *)
Definition state_before (to_float : string -> option float)
    (tokens : list string) (i : nat) : state :=
  fold_left (ExtractData.step to_float tokens) (seq 0 i) initial.

(** The boundary events as the specification counts them: a close or stroke
    token, or a move token, read while a segment is open. *)
Definition stated_event (tokens : list string) (i : nat) (st : state) : nat :=
  let token := nth i tokens EmptyString in
  one_if (is_open st && (mem token close_tokens || mem token move_tokens)).

(** The segments an operator that takes effect adds to [all_segments]: the
    open segment for a move, a close or a rectangle, and the rectangle's own
    loop. *)
Definition segments_added (op : operator) (st : state) : nat :=
  match op with
  | Move _ _ | Close => one_if (is_open st)
  | Rectangle _ _ _ _ => one_if (is_open st) + 1
  | Line _ _ | Relative _ _ | Ignored => 0
  end.

(** The sum of [f i st] over the indices of the stream, [st] the state before
    index [i]; one more when a segment is open after the last token. *)
Definition count_events (to_float : string -> option float)
    (tokens : list string) (f : nat -> state -> nat) : nat :=
  list_sum (map (fun i => f i (state_before to_float tokens i))
              (seq 0 (List.length tokens)))
  + one_if (is_open (ExtractData.loop to_float tokens initial)).

Definition stated_boundary_events (to_float : string -> option float)
    (tokens : list string) : nat :=
  count_events to_float tokens (stated_event tokens).

Definition boundary_events (to_float : string -> option float)
    (tokens : list string) : nat :=
  count_events to_float tokens
    (fun i => segments_added (operator_at to_float tokens i)).

(** The operators of a token stream, in order. *)
Definition operators (to_float : string -> option float)
    (tokens : list string) : list operator :=
  map (operator_at to_float tokens) (seq 0 (List.length tokens)).

(** The number of segments a sequence of operators gives, [open] telling
    whether a segment is open before the first: a line or relative operator
    opens a segment; a move, a close or a rectangle closes the open one. *)
Fixpoint count_segments (ops : list operator) (open : bool) : nat :=
  match ops with
  | [] => one_if open
  | Move _ _ :: ops' | Close :: ops' => one_if open + count_segments ops' false
  | Rectangle _ _ _ _ :: ops' => one_if open + 1 + count_segments ops' false
  | Line _ _ :: ops' | Relative _ _ :: ops' => count_segments ops' true
  | Ignored :: ops' => count_segments ops' open
  end.

(** A token that [ExtractData.py] reads as an operator; the operators of
    [ExtractDataPS.py] are among them. *)
Definition is_operator (t : string) : bool :=
  mem t move_tokens || mem t line_tokens || mem t relative_tokens
  || (t =? "re")%string || mem t close_tokens.

Definition no_operator (tokens : list string) : bool :=
  forallb (fun t => negb (is_operator t)) tokens.

(** A token that parses as a number and is no operator. *)
Definition numeric (to_float : string -> option float) (t : string) : bool :=
  match to_float t with
  | Some _ => negb (is_operator t)
  | None => false
  end.

(** A move, line or relative operator. *)
Definition coordinate_token (t : string) : bool :=
  mem t move_tokens || mem t line_tokens || mem t relative_tokens.

(** A line with at most one operator, which is its last token and is either
    [stroke] or [S], or a move, line or relative operator that stands after
    two numbers. The tokens are read from the last one backwards. *)
Definition plain_line (to_float : string -> option float)
    (tokens : list string) : bool :=
  match rev tokens with
  | [] => true
  | op :: before =>
      if mem op ExtractDataPS.stroke_tokens then no_operator before
      else if coordinate_token op then
        match before with
        | b :: a :: others =>
            numeric to_float a && numeric to_float b && no_operator others
        | _ => false
        end
      else no_operator (op :: before)
  end.

Fixpoint no_percent (s : string) : bool :=
  match s with
  | EmptyString => true
  | String c s' => negb (code c =? 37) && no_percent s'
  end.

(** The tokens of every line, as [ExtractDataPS.py] splits the text. *)
Definition token_lines (text : string) : list (list string) :=
  map (fun line => split (strip line)) (readlines text).

(** Operator text without comments, every line a [plain_line]. *)
Definition one_operator_per_line (to_float : string -> option float)
    (text : string) : bool :=
  no_percent text && forallb (plain_line to_float) (token_lines text).

(** The first line that ends in a move, line or relative operator ends in a
    line operator. *)
Fixpoint line_first (lines : list (list string)) : bool :=
  match lines with
  | [] => false
  | tokens :: lines' =>
      let op := hd EmptyString (rev tokens) in
      if mem op line_tokens then true
      else if mem op move_tokens || mem op relative_tokens then false
      else line_first lines'
  end.

(** The operator of a [plain_line]. *)
Definition line_operator (to_float : string -> option float)
    (tokens : list string) : operator :=
  match rev tokens with
  | op :: before =>
      if mem op ExtractDataPS.stroke_tokens then Close
      else
        match before with
        | b :: a :: _ =>
            match pair_of to_float a b with
            | Some (x, y) =>
                if mem op move_tokens then Move x y
                else if mem op line_tokens then Line x y
                else if mem op relative_tokens then Relative x y
                else Ignored
            | None => Ignored
            end
        | _ => Ignored
        end
  | [] => Ignored
  end.

(** The shapes of a [plain_line]. *)
Inductive plain_shape (to_float : string -> option float)
    : list string -> operator -> Prop :=
| shape_no_operator (run : list string) :
    no_operator run = true ->
    plain_shape to_float run Ignored
| shape_stroke (run : list string) (op : string) :
    no_operator run = true ->
    mem op ExtractDataPS.stroke_tokens = true ->
    plain_shape to_float (run ++ [op]) Close
| shape_coordinate (run : list string) (a b op : string) (x y : float) :
    no_operator run = true ->
    is_operator a = false -> is_operator b = false ->
    to_float a = Some x -> to_float b = Some y ->
    coordinate_token op = true ->
    plain_shape to_float (run ++ [a; b; op])
      (if mem op move_tokens then Move x y
       else if mem op line_tokens then Line x y
       else Relative x y).

(** What [ExtractDataPS.py] does for each operator it knows: as [perform],
    but the seed of a line extends the bounding box. *)
Definition ps_perform (st : state) (op : operator) : state :=
  match op with
  | Line x y =>
      let st := seed_bounded st in
      let st := append_point st (x, y) in
      let st := set_cursor st x y in
      set_bounds st (update_bounds (ps_bounds st) x y)
  | Rectangle _ _ _ _ => st
  | _ => perform st op
  end.

Definition no_rectangle (op : operator) : Prop :=
  match op with Rectangle _ _ _ _ => False | _ => True end.

(** Segments and cursor agree. *)
Definition same_paths (st1 st2 : state) : Prop :=
  all_segments st1 = all_segments st2
  /\ current_segment st1 = current_segment st2
  /\ current_x st1 = current_x st2
  /\ current_y st1 = current_y st2.

(** The cursor extends the bounding box no further. *)
Definition anchored (st : state) : Prop :=
  update_bounds (ps_bounds st) (current_x st) (current_y st) = ps_bounds st.

(** The first operator that moves the cursor is a line. *)
Fixpoint starts_with_line (ops : list operator) : bool :=
  match ops with
  | [] => false
  | Line _ _ :: _ => true
  | Move _ _ :: _ | Relative _ _ :: _ | Rectangle _ _ _ _ :: _ => false
  | _ :: ops' => starts_with_line ops'
  end.

(** Neither infinite nor NaN. *)
Definition sf_finite (x : spec_float) : Prop :=
  match x with
  | S754_zero _ | S754_finite _ _ _ => True
  | _ => False
  end.

(** ** Notions of the further properties *)

(** The bounding box is empty, or it has its four entries and neither
    maximum is below its minimum. *)
Definition consistent (b : bounds) : Prop :=
  match xmin b, xmax b, ymin b, ymax b with
  | None, None, None, None => True
  | Some x0, Some x1, Some y0, Some y1 =>
      (x1 <? x0)%float = false /\ (y1 <? y0)%float = false
  | _, _, _, _ => False
  end.

(** Every point of the segments lies in the box [b]. *)
Definition all_inside (b : bounds) (segs : list segment) : Prop :=
  Forall (Forall (fun p => outside b p = false)) segs.

(** Every point of every segment, closed or open, lies in the bounding
    box. *)
Definition points_inside (st : state) : Prop :=
  all_inside (ps_bounds st) (current_segment st :: all_segments st).

(** The cursor lies in the bounding box. *)
Definition cursor_inside (st : state) : Prop :=
  outside (ps_bounds st) (current_x st, current_y st) = false.

(** No segment has fewer than [n] points; the open segment is empty or has
    [n] points too. *)
Definition segments_at_least (n : nat) (st : state) : Prop :=
  Forall (fun seg => n <= List.length seg) (all_segments st)
  /\ (current_segment st = [] \/ n <= List.length (current_segment st)).

(** The first operator that sets the cursor is a line. *)
Fixpoint line_sets_cursor_first (ops : list operator) : bool :=
  match ops with
  | [] => false
  | Line _ _ :: _ => true
  | Move _ _ :: _ | Relative _ _ :: _ => false
  | _ :: ops' => line_sets_cursor_first ops'
  end.

(** An operator that carries coordinates. *)
Definition has_coordinates (op : operator) : bool :=
  match op with
  | Move _ _ | Line _ _ | Relative _ _ | Rectangle _ _ _ _ => true
  | Close | Ignored => false
  end.

(** A line or relative operator. *)
Definition draws (op : operator) : bool :=
  match op with
  | Line _ _ | Relative _ _ => true
  | _ => false
  end.

(** Where a line or relative operator takes the cursor from [p]. *)
Definition destination (p : point) (op : operator) : point :=
  match op with
  | Line x y => (x, y)
  | Relative dx dy => ((fst p + dx)%float, (snd p + dy)%float)
  | _ => p
  end.

(** The points that line and relative operators visit from [p]. *)
Fixpoint path (p : point) (ops : list operator) : list point :=
  match ops with
  | [] => []
  | op :: ops' => destination p op :: path (destination p op) ops'
  end.

(** The operators that take effect. *)
Definition effective (ops : list operator) : list operator :=
  filter (fun op => match op with Ignored => false | _ => true end) ops.

(** Segments exist only with a bounding box. *)
Definition boxed (st : state) : Prop :=
  (all_segments st = [] /\ current_segment st = [])
  \/ exists x0, xmin (ps_bounds st) = Some x0.

(** A close or stroke operator. *)
Definition closes (op : operator) : bool :=
  match op with
  | Close => true
  | _ => false
  end.

(** The linear map of [convert_value] as an expression on floats. *)
Definition linear (val ps_min ps_max user_min user_max : float) : float :=
  if (ps_max =? ps_min)%float then user_min
  else ((val - ps_min) / (ps_max - ps_min) * (user_max - user_min)
        + user_min)%float.

(** The number of points of a list of segments. *)
Definition count_points (segs : list segment) : nat :=
  List.length (List.concat segs).

(** A string without white space. *)
Fixpoint no_space (s : string) : bool :=
  match s with
  | EmptyString => true
  | String c s' => negb (isspace c) && no_space s'
  end.

(** A string that is not empty and has no white space. *)
Definition word (t : string) : bool :=
  negb (t =? "")%string && no_space t.

(** A string without a line boundary. *)
Fixpoint no_linebreak (s : string) : bool :=
  match s with
  | EmptyString => true
  | String c s' => negb (is_linebreak c) && no_linebreak s'
  end.

(** The string is empty or starts with a line boundary. *)
Definition ends_line (s : string) : bool :=
  match s with
  | EmptyString => true
  | String c _ => is_linebreak c
  end.

(** * Theorems *)

(** ** The segment classifier *)

Lemma data_segments_subsequence (segs : list segment) :
  subsequence (data_segments segs) segs.
Proof.
  induction segs as [|seg segs IH]; simpl.
  - constructor.
  - destruct (10 <? List.length seg); now constructor.
Qed.

Lemma data_segments_length (segs : list segment) :
  List.length (data_segments segs) + count_short segs = List.length segs.
Proof.
  induction segs as [|seg segs IH]; simpl; trivial.
  destruct (Nat.ltb_spec 10 (List.length seg)) as [Hlong|Hshort];
    destruct (Nat.leb_spec (List.length seg) 10); simpl; lia.
Qed.

(** C6. The classifier keeps exactly the segments of more than ten points, in
    their order (a segment of ten points is dropped, one of eleven is kept),
    and the number reported as filtered out is the number of segments minus
    the number kept, that is the number of segments of at most ten points. *)
Theorem classifier_keeps_more_than_ten (segs : list segment) :
  subsequence (data_segments segs) segs
  /\ (forall seg, In seg (data_segments segs) <->
                  In seg segs /\ 10 < List.length seg)
  /\ List.length (data_segments segs) + count_short segs = List.length segs
  /\ filtered_out segs = Z.of_nat (count_short segs)
  /\ (forall seg, List.length seg = 10 -> data_segments [seg] = [])
  /\ (forall seg, List.length seg = 11 -> data_segments [seg] = [seg]).
Proof.
  repeat split.
  - apply data_segments_subsequence.
  - unfold data_segments in H. apply filter_In in H. tauto.
  - unfold data_segments in H. apply filter_In in H.
    destruct H as [_ H]. now apply Nat.ltb_lt in H.
  - intros [Hin Hlen]. apply filter_In. split; trivial. now apply Nat.ltb_lt.
  - apply data_segments_length.
  - unfold filtered_out. pose proof (data_segments_length segs). lia.
  - intros seg Hlen. unfold data_segments. simpl. now rewrite Hlen.
  - intros seg Hlen. unfold data_segments. simpl. now rewrite Hlen.
Qed.

(** ** The calibration mapper on a degenerate axis *)

(** C7. When the page bounds of an axis are equal, [convert_value] returns
    [user_min] for every value and in either mode, prints nothing and raises
    nothing. *)
Theorem degenerate_axis_returns_user_min
    (log10 : float -> float) (pow10 : float -> option float)
    (val ps_min ps_max user_min user_max : float) (is_log : bool) :
  (ps_max =? ps_min)%float = true ->
  convert_value log10 pow10 val ps_min ps_max user_min user_max is_log
  = ([], Returned user_min).
Proof.
  intros Heq. unfold convert_value. now rewrite Heq.
Qed.

Lemma degenerate_axis_returns_user_min_witness :
  (140 =? 140)%float = true
  /\ convert_value (fun x => x) (fun x => Some x) 7 140 140 (-1) 1 true
     = ([], Returned (-1)%float).
Proof.
  split; [reflexivity |].
  apply (degenerate_axis_returns_user_min (fun x => x) (fun x => Some x)
           7 140 140 (-1) 1 true).
  reflexivity.
Defined.

(** ** Operators whose arguments are missing or malformed *)

(** From [mem token [t1; ...; tn] = true] to the cases [token = ti]. *)
Ltac token_cases H :=
  unfold mem, move_tokens, line_tokens, relative_tokens, close_tokens in H;
  simpl existsb in H;
  repeat (apply orb_true_iff in H; destruct H as [H|H]);
  try discriminate H;
  apply String.eqb_eq in H.

(** Decide which branch a known token takes. *)
Ltac known_token :=
  cbn [mem existsb move_tokens line_tokens relative_tokens close_tokens
       ExtractDataPS.move_tokens ExtractDataPS.line_tokens
       ExtractDataPS.relative_tokens ExtractDataPS.stroke_tokens
       String.eqb Ascii.eqb Bool.eqb andb orb].

Lemma leb_false_of_lt (n i : nat) : i < n -> (n <=? i) = false.
Proof. intros H. now apply Nat.leb_gt. Qed.

(** X1. In [ExtractData.py] a move, line or relative operator with fewer
    than two tokens before it, or with an argument that is no number, leaves
    the state as it was. *)
Lemma vec_malformed_pair_skipped
    (to_float : string -> option float) (tokens : list string)
    (st : state) (i : nat) :
  mem (nth i tokens EmptyString) (move_tokens ++ line_tokens ++ relative_tokens)
    = true ->
  i < 2 \/ to_float (ExtractData.back tokens i 2) = None
        \/ to_float (ExtractData.back tokens i 1) = None ->
  ExtractData.step to_float tokens st i = st.
Proof.
  intros Htok Hbad. unfold ExtractData.step.
  token_cases Htok; rewrite Htok; known_token;
    (destruct Hbad as [Hi|[Hx|Hy]];
     [ rewrite (leb_false_of_lt _ _ Hi); reflexivity
     | destruct (2 <=? i); trivial; now rewrite Hx
     | destruct (2 <=? i); trivial; rewrite Hy;
       now destruct (to_float (ExtractData.back tokens i 2)) ]).
Qed.

(** X2. In [ExtractData.py] a rectangle operator with fewer than four tokens
    before it, or with an argument that is no number, leaves the state as it
    was. *)
Lemma vec_malformed_rectangle_skipped
    (to_float : string -> option float) (tokens : list string)
    (st : state) (i : nat) :
  nth i tokens EmptyString = "re" ->
  i < 4 \/ (exists k, 1 <= k <= 4 /\ to_float (ExtractData.back tokens i k) = None) ->
  ExtractData.step to_float tokens st i = st.
Proof.
  intros Htok Hbad. unfold ExtractData.step. rewrite Htok. known_token.
  destruct Hbad as [Hi|(k & Hk & Hnone)].
  - now rewrite (leb_false_of_lt _ _ Hi).
  - destruct (4 <=? i); trivial.
    assert (Hcases : k = 1 \/ k = 2 \/ k = 3 \/ k = 4) by lia.
    destruct Hcases as [ -> | [ -> | [ -> | -> ] ] ]; rewrite Hnone;
      repeat (match goal with
              | |- context [match to_float ?t with _ => _ end] =>
                  destruct (to_float t)
              end); reflexivity.
Qed.

(** C9. In [ExtractDataPS.py] a line operator whose arguments are no numbers
    is not skipped without effect: read as the first line of a file, it
    seeds the segment with the origin and puts the origin into the bounding
    box, and a move whose arguments are no numbers closes the open segment.
    [ExtractData.py] leaves the state unchanged on the same operators. *)
Theorem ps_malformed_operator_changes_state :
  float_of_string "a" = None
  /\ ExtractDataPS.step float_of_string initial "a b l"
     = State [] [(0, 0)%float]
         (Bounds (Some 0%float) (Some 0%float) (Some 0%float) (Some 0%float))
         0 0
  /\ all_segments (ps_assemble "a b l") = [[(0, 0)%float]]
  /\ vec_assemble "a b l" = initial
  /\ (let before := State [] [(1, 1); (2, 2)]%float
                      (Bounds (Some 1) (Some 2) (Some 1) (Some 2))%float 2 2 in
      ExtractDataPS.step float_of_string before "x y m"
      = State [[(1, 1); (2, 2)]%float] []
          (Bounds (Some 1) (Some 2) (Some 1) (Some 2))%float 2 2
      /\ ExtractData.step float_of_string ["x"; "y"; "m"] before 2 = before).
Proof.
  repeat split; vm_compute; reflexivity.
Qed.

(** ** Empty operator text *)

(** Without a coordinate the page bounds stay [None], and printing them
    raises. *)
Lemma no_bounds_raises
    (log10 : float -> float) (pow10 : float -> option float)
    (st : state) (user_limits : option limits) :
  xmin (ps_bounds st) = None ->
  filter_and_write log10 pow10 st user_limits = ([], Raised TypeError).
Proof.
  intros H. unfold filter_and_write. now rewrite H.
Qed.

(** C1. A PDF in which no stream decodes gives empty operator text: the
    warning is printed, no segment is assembled, and the run then ends in
    the [TypeError] of formatting a page bound that is [None]; it writes no
    report. The same holds for an empty text file in either script. *)
Theorem empty_operator_text_raises
    (to_float : string -> option float)
    (log10 : float -> float) (pow10 : float -> option float)
    (t : option string) (user_limits : option limits) :
  ExtractData.get_plot_commands (ExtractData.InputFile true "" t)
    = ([PdfDetected; WarnNoVectorData], Returned "")
  /\ all_segments (ExtractData.assemble to_float (ExtractData.tokenize "")) = []
  /\ ExtractData.extract_vector_data to_float log10 pow10
       (ExtractData.InputFile true "" t) user_limits
     = ([ReadingFrom; PdfDetected; WarnNoVectorData], Raised TypeError)
  /\ ExtractData.extract_vector_data to_float log10 pow10
       (ExtractData.InputFile false "" (Some "")) user_limits
     = ([ReadingFrom], Raised TypeError)
  /\ ExtractDataPS.extract_ps_data to_float log10 pow10 (Some "") user_limits
     = ([ReadingFrom], Raised TypeError).
Proof.
  repeat split; reflexivity.
Qed.

(** ** The calibration bounds of the command line *)

(** A bound that is given and not zero, with another bound missing, is
    refused. *)
Lemma partial_nonzero_bounds_refused (args : arguments) :
  truthy (arg_xmin args) || truthy (arg_xmax args)
  || truthy (arg_ymin args) || truthy (arg_ymax args) = true ->
  arg_xmin args = None \/ arg_xmax args = None
  \/ arg_ymin args = None \/ arg_ymax args = None ->
  read_limits args = ([ErrAllBounds], SysExit 1%Z).
Proof.
  intros Hany Hmissing. unfold read_limits. rewrite Hany.
  destruct Hmissing as [H|[H|[H|H]]]; rewrite H;
    repeat (match goal with
            | |- context [match ?a args with _ => _ end] => destruct (a args)
            end); reflexivity.
Qed.

(** C2. With [--xmin 0] as the only bound given, the command line is not
    refused: [any] reads the zero as false, no error is printed, and both
    scripts run as if no calibration had been asked for. *)
Theorem lone_zero_bound_accepted
    (to_float : string -> option float)
    (log10 : float -> float) (pow10 : float -> option float)
    (f : ExtractData.input_file) (ps_file : option string) :
  let args := Arguments (Some 0%float) None None None false false in
  read_limits args = ([], Returned None)
  /\ ExtractData.main to_float log10 pow10 args f
     = ExtractData.extract_vector_data to_float log10 pow10 f None
  /\ ExtractDataPS.main to_float log10 pow10 args ps_file
     = ExtractDataPS.extract_ps_data to_float log10 pow10 ps_file None.
Proof.
  intros args. split; [reflexivity | split; reflexivity].
Qed.

(** ** The seed of a segment and the bounding box *)

Lemma leb_true_of_le (n i : nat) : n <= i -> (n <=? i) = true.
Proof. intros H. now apply Nat.leb_le. Qed.

(** C10. In [ExtractData.py] a line operator that finds no open segment puts
    the cursor into the segment as its first point and extends the bounding
    box by the destination only, while a relative operator extends the box
    by the cursor too. So a line with no move before it gives a segment whose
    first point, the origin, lies outside the reported bounding box; with
    eleven such lines the segment is kept as data. *)
Theorem line_seed_not_in_bounds :
  (forall (to_float : string -> option float) (tokens : list string)
          (st : state) (i : nat) (x y : float),
      mem (nth i tokens EmptyString) line_tokens = true ->
      2 <= i ->
      to_float (ExtractData.back tokens i 2) = Some x ->
      to_float (ExtractData.back tokens i 1) = Some y ->
      current_segment st = [] ->
      ExtractData.step to_float tokens st i
      = State (all_segments st) [(current_x st, current_y st); (x, y)]
          (update_bounds (ps_bounds st) x y) x y)
  /\ (forall (to_float : string -> option float) (tokens : list string)
             (st : state) (i : nat) (dx dy : float),
      mem (nth i tokens EmptyString) relative_tokens = true ->
      2 <= i ->
      to_float (ExtractData.back tokens i 2) = Some dx ->
      to_float (ExtractData.back tokens i 1) = Some dy ->
      current_segment st = [] ->
      ExtractData.step to_float tokens st i
      = State (all_segments st)
          [(current_x st, current_y st);
           ((current_x st + dx)%float, (current_y st + dy)%float)]
          (update_bounds
             (update_bounds (ps_bounds st) (current_x st) (current_y st))
             (current_x st + dx)%float (current_y st + dy)%float)
          (current_x st + dx)%float (current_y st + dy)%float)
  /\ (let st := vec_assemble "5 5 l" in
      all_segments st = [[(0, 0); (5, 5)]%float]
      /\ ps_bounds st = Bounds (Some 5%float) (Some 5%float)
                               (Some 5%float) (Some 5%float)
      /\ outside (ps_bounds st) (0, 0)%float = true)
  /\ (let st := vec_assemble
        "1 1 l 2 2 l 3 3 l 4 4 l 5 5 l 6 6 l 7 7 l 8 8 l 9 9 l 10 10 l 11 11 l" in
      exists seg, data_segments (all_segments st) = [seg]
                  /\ hd_error seg = Some (0, 0)%float
                  /\ List.length seg = 12
                  /\ outside (ps_bounds st) (0, 0)%float = true).
Proof.
  split; [|split; [|split]].
  - intros to_float tokens st i x y Htok Hi Hx Hy Hcur.
    unfold ExtractData.step.
    token_cases Htok; rewrite Htok; known_token;
      rewrite (leb_true_of_le _ _ Hi), Hx, Hy;
      unfold seed, append_point, set_cursor, set_bounds; rewrite Hcur;
      reflexivity.
  - intros to_float tokens st i dx dy Htok Hi Hx Hy Hcur.
    unfold ExtractData.step.
    token_cases Htok; rewrite Htok; known_token;
      rewrite (leb_true_of_le _ _ Hi), Hx, Hy;
      unfold seed_bounded, append_point, set_cursor, set_bounds; rewrite Hcur;
      reflexivity.
  - vm_compute. repeat split.
  - eexists. vm_compute. repeat split.
Qed.

Lemma line_seed_not_in_bounds_witness :
  ExtractData.step float_of_string ["5"; "5"; "l"] initial 2
  = State [] [(0, 0); (5, 5)]%float
      (Bounds (Some 5%float) (Some 5%float) (Some 5%float) (Some 5%float)) 5 5.
Proof.
  apply (proj1 line_seed_not_in_bounds float_of_string ["5"; "5"; "l"]
           initial 2 5%float 5%float);
    try reflexivity; lia.
Defined.

(** ** The number of segments *)

Lemma step_perform (to_float : string -> option float)
    (tokens : list string) (st : state) (i : nat) :
  ExtractData.step to_float tokens st i
  = perform st (operator_at to_float tokens i).
Proof.
  unfold ExtractData.step, operator_at, pair_of.
  repeat (match goal with
          | |- context [if ?c then _ else _] => destruct c
          | |- context [match to_float ?t with _ => _ end] =>
              destruct (to_float t)
          end; try reflexivity).
Qed.

Lemma close_segment_length (st : state) :
  List.length (all_segments (close_segment st))
  = List.length (all_segments st) + one_if (is_open st).
Proof.
  unfold close_segment, is_open.
  destruct (current_segment st); simpl; [lia |].
  rewrite length_app. reflexivity.
Qed.

Lemma perform_length (st : state) (op : operator) :
  List.length (all_segments (perform st op))
  = List.length (all_segments st) + segments_added op st.
Proof.
  destruct op; simpl; try lia.
  - apply close_segment_length.
  - unfold seed. destruct (current_segment st); simpl; lia.
  - unfold seed_bounded. destruct (current_segment st); simpl; lia.
  - unfold is_open. destruct (current_segment st); simpl;
      repeat rewrite length_app; simpl; lia.
  - apply close_segment_length.
Qed.

Lemma state_before_succ (to_float : string -> option float)
    (tokens : list string) (i : nat) :
  state_before to_float tokens (S i)
  = ExtractData.step to_float tokens (state_before to_float tokens i) i.
Proof.
  unfold state_before. rewrite seq_S, fold_left_app. reflexivity.
Qed.

Lemma segments_before (to_float : string -> option float)
    (tokens : list string) (n : nat) :
  List.length (all_segments (state_before to_float tokens n))
  = list_sum (map (fun i => segments_added (operator_at to_float tokens i)
                              (state_before to_float tokens i))
                (seq 0 n)).
Proof.
  induction n as [|n IH].
  - reflexivity.
  - rewrite state_before_succ, step_perform, perform_length, IH.
    rewrite seq_S, map_app, list_sum_app. simpl. lia.
Qed.

Lemma loop_operators (to_float : string -> option float)
    (tokens : list string) (st : state) :
  ExtractData.loop to_float tokens st
  = fold_left perform (operators to_float tokens) st.
Proof.
  unfold ExtractData.loop, operators.
  generalize (seq 0 (List.length tokens)) as l. intros l. revert st.
  induction l as [|i l IH]; intros st; simpl; trivial.
  now rewrite IH, step_perform.
Qed.

Lemma perform_is_open (st : state) (op : operator) :
  is_open (perform st op)
  = match op with
    | Move _ _ | Close | Rectangle _ _ _ _ => false
    | Line _ _ | Relative _ _ => true
    | Ignored => is_open st
    end.
Proof.
  destruct op; unfold is_open; simpl; trivial;
    unfold close_segment, seed, seed_bounded;
    destruct (current_segment st) eqn:Hcur; simpl; rewrite ?Hcur; reflexivity.
Qed.

Lemma count_segments_correct (ops : list operator) (st : state) :
  List.length (all_segments (close_segment (fold_left perform ops st)))
  = List.length (all_segments st) + count_segments ops (is_open st).
Proof.
  revert st. induction ops as [|op ops IH]; intros st.
  - apply close_segment_length.
  - simpl fold_left. rewrite IH, perform_length, perform_is_open.
    destruct op; simpl; lia.
Qed.

(** C5, as amended. The number of assembled segments is the number of
    boundary events that take effect: a close or stroke operator, or a move
    with two numeric arguments, read while a segment is open; every rectangle
    with four numeric arguments, which adds its own loop and closes the open
    segment as well; and one more when a segment is open after the last
    token. The number depends on the sequence of operators only. *)
Theorem segment_count_is_boundary_events
    (to_float : string -> option float) (tokens : list string) :
  List.length (all_segments (ExtractData.assemble to_float tokens))
  = boundary_events to_float tokens
  /\ List.length (all_segments (ExtractData.assemble to_float tokens))
     = count_segments (operators to_float tokens) false.
Proof.
  split.
  - unfold ExtractData.assemble, boundary_events, count_events.
    rewrite close_segment_length. f_equal.
    apply (segments_before to_float tokens (List.length tokens)).
  - unfold ExtractData.assemble. rewrite loop_operators.
    apply (count_segments_correct (operators to_float tokens) initial).
Qed.

(** C5 as stated fails on a rectangle: it adds a segment, and no close,
    stroke or move was read. It fails on a move whose arguments are no
    numbers too: read while a segment is open, it closes nothing. *)
Lemma rectangle_is_no_stated_event :
  (List.length (all_segments
                  (ExtractData.assemble float_of_string
                     ["5"; "5"; "10"; "20"; "re"])) = 1
   /\ stated_boundary_events float_of_string ["5"; "5"; "10"; "20"; "re"] = 0)
  /\ (List.length (all_segments
                     (ExtractData.assemble float_of_string
                        ["1"; "1"; "m"; "2"; "2"; "l"; "x"; "y"; "m"])) = 1
      /\ stated_boundary_events float_of_string
           ["1"; "1"; "m"; "2"; "2"; "l"; "x"; "y"; "m"] = 2).
Proof.
  repeat split; vm_compute; reflexivity.
Qed.

(** ** The two assemblers on one operator per line *)

(** *** Tokenizing *)

Lemma snoc_append (cur : string) (c : ascii) (s : string) :
  (snoc cur c ++ s)%string = (cur ++ String c s)%string.
Proof.
  unfold snoc. induction cur as [|a cur IH]; simpl; trivial. now rewrite IH.
Qed.

Lemma append_empty (s : string) : (s ++ "")%string = s.
Proof. induction s as [|a s IH]; simpl; trivial. now rewrite IH. Qed.

Lemma split_from_space (cur a : string) (c : ascii) (b : string) :
  isspace c = true ->
  split_from cur (a ++ String c b) = split_from cur a ++ split b.
Proof.
  intros Hc. revert cur. induction a as [|x a IH]; intros cur; simpl.
  - now rewrite Hc.
  - destruct (isspace x).
    + now rewrite IH, app_assoc.
    + apply IH.
Qed.

Lemma split_lstrip (s : string) : split (lstrip s) = split s.
Proof.
  unfold split. induction s as [|c s IH]; simpl; trivial.
  destruct (isspace c) eqn:Hc; simpl; trivial. now rewrite Hc.
Qed.

Lemma split_from_rstrip (cur s : string) :
  split_from cur (rstrip s) = split_from cur s.
Proof.
  revert cur. induction s as [|c s IH]; intros cur; simpl; trivial.
  destruct (rstrip s) as [|a r] eqn:Hr.
  - destruct (isspace c) eqn:Hc; simpl; rewrite ?Hc.
    + rewrite <- IH. simpl. now rewrite app_nil_r.
    + now rewrite <- IH.
  - simpl. destruct (isspace c); now rewrite <- IH.
Qed.

Lemma split_strip (s : string) : split (strip s) = split s.
Proof.
  unfold strip. unfold split at 1. rewrite split_from_rstrip.
  apply split_lstrip.
Qed.

Lemma linebreak_isspace (c : ascii) : is_linebreak c = true -> isspace c = true.
Proof.
  unfold is_linebreak, isspace. generalize (code c) as n. intros n.
  repeat match goal with
         | |- context [?a <=? ?b] => destruct (Nat.leb_spec a b)
         | |- context [?a =? ?b] => destruct (Nat.eqb_spec a b)
         end; simpl; intros; try reflexivity; try discriminate; exfalso; lia.
Qed.

Lemma linefeed_isspace (c : ascii) : (code c =? 10) = true -> isspace c = true.
Proof.
  intros H. apply Nat.eqb_eq in H. unfold isspace. now rewrite H.
Qed.

Lemma no_percent_snoc (cur : string) (c : ascii) :
  no_percent (snoc cur c) = no_percent cur && negb (code c =? 37).
Proof.
  unfold snoc. induction cur as [|a cur IH]; simpl.
  - now rewrite andb_true_r.
  - rewrite IH. now rewrite andb_assoc.
Qed.

Lemma before_percent_none (s : string) :
  no_percent s = true -> before_percent s = s.
Proof.
  induction s as [|c s IH]; simpl; trivial.
  intros H. apply andb_true_iff in H. destruct H as [Hc Hs].
  destruct (code c =? 37); [discriminate|]. now rewrite IH.
Qed.

Lemma tokens_of_flush (cur : string) :
  no_percent cur = true ->
  flat_map (fun line => split (before_percent line)) (flush cur) = split cur.
Proof.
  intros H. destruct cur as [|a cur]; [reflexivity|].
  unfold flush. cbn [flat_map]. now rewrite app_nil_r, before_percent_none.
Qed.

(** Without comments, [ExtractData.py] splits the whole text at blanks. *)
Lemma tokenize_from (n : nat) :
  forall (s cur : string),
    String.length s <= n ->
    no_percent cur = true -> no_percent s = true ->
    flat_map (fun line => split (before_percent line)) (splitlines_from cur s)
    = split (cur ++ s).
Proof.
  induction n as [|n IH]; intros s cur Hlen Hcur Hs.
  - destruct s; [|simpl in Hlen; lia]. cbn [splitlines_from].
    rewrite append_empty. now apply tokens_of_flush.
  - destruct s as [|c s'].
    + cbn [splitlines_from]. rewrite append_empty. now apply tokens_of_flush.
    + simpl in Hlen, Hs. apply andb_true_iff in Hs. destruct Hs as [Hc Hs'].
      simpl splitlines_from. destruct (is_linebreak c) eqn:Hbreak.
      * unfold split at 2. rewrite (split_from_space _ _ _ _ (linebreak_isspace _ Hbreak)).
        simpl flat_map. rewrite (before_percent_none _ Hcur). f_equal.
        destruct s' as [|c' s'']; trivial.
        destruct ((code c =? 13) && (code c' =? 10)) eqn:Hcrlf.
        -- apply andb_true_iff in Hcrlf. destruct Hcrlf as [_ Hlf].
           simpl in Hs'. apply andb_true_iff in Hs'. destruct Hs' as [_ Hs''].
           rewrite (IH s'' EmptyString); trivial; [|simpl in Hlen; lia].
           unfold split. simpl. now rewrite (linefeed_isspace _ Hlf).
        -- rewrite (IH (String c' s'') EmptyString); trivial. lia.
      * rewrite (IH s' (snoc cur c)); trivial; [|lia|].
        -- now rewrite snoc_append.
        -- rewrite no_percent_snoc. now rewrite Hcur, Hc.
Qed.

Lemma tokenize_split (text : string) :
  no_percent text = true -> ExtractData.tokenize text = split text.
Proof.
  intros H. unfold ExtractData.tokenize, splitlines.
  now rewrite (tokenize_from (String.length text) text EmptyString).
Qed.

(** [ExtractDataPS.py] reads the same tokens, line by line. *)
Lemma token_lines_from (s cur : string) :
  List.concat (map (fun line => split (strip line)) (readlines_from cur s))
  = split (cur ++ s).
Proof.
  revert cur. induction s as [|c s IH]; intros cur.
  - simpl. rewrite append_empty. destruct cur; simpl; trivial.
    now rewrite app_nil_r, split_strip.
  - simpl readlines_from. destruct (code c =? 10) eqn:Hc.
    + simpl. rewrite IH, split_strip. simpl.
      unfold split at 3. rewrite (split_from_space _ _ _ _ (linefeed_isspace _ Hc)).
      f_equal. unfold split. unfold snoc.
      rewrite (split_from_space _ _ _ _ (linefeed_isspace _ Hc)).
      simpl. now rewrite app_nil_r.
    + rewrite IH. now rewrite snoc_append.
Qed.

Lemma tokenize_token_lines (text : string) :
  no_percent text = true ->
  ExtractData.tokenize text = List.concat (token_lines text).
Proof.
  intros H. rewrite (tokenize_split _ H). unfold token_lines, readlines.
  now rewrite token_lines_from.
Qed.

(** *** One line *)

Lemma numeric_parses (to_float : string -> option float) (t : string) :
  numeric to_float t = true ->
  exists x, to_float t = Some x /\ is_operator t = false.
Proof.
  unfold numeric. destruct (to_float t) as [x|]; [|discriminate].
  intros H. exists x. split; trivial. now apply negb_true_iff.
Qed.

Lemma not_operator (t : string) :
  is_operator t = false ->
  mem t move_tokens = false /\ mem t line_tokens = false
  /\ mem t relative_tokens = false /\ (t =? "re")%string = false
  /\ mem t close_tokens = false.
Proof.
  unfold is_operator. intros H.
  apply orb_false_iff in H. destruct H as [H Hclose].
  apply orb_false_iff in H. destruct H as [H Hre].
  apply orb_false_iff in H. destruct H as [H Hrel].
  apply orb_false_iff in H. destruct H as [Hmove Hline].
  tauto.
Qed.

(** The operator lists of [ExtractDataPS.py] hold the same tokens, and its
    strokes are among the closing tokens. *)
Lemma ps_tokens (t : string) :
  mem t ExtractDataPS.move_tokens = mem t move_tokens
  /\ mem t ExtractDataPS.line_tokens = mem t line_tokens
  /\ mem t ExtractDataPS.relative_tokens = mem t relative_tokens
  /\ (mem t close_tokens = false -> mem t ExtractDataPS.stroke_tokens = false).
Proof.
  unfold mem, ExtractDataPS.move_tokens, ExtractDataPS.line_tokens,
    ExtractDataPS.relative_tokens, ExtractDataPS.stroke_tokens,
    move_tokens, line_tokens, relative_tokens, close_tokens.
  simpl existsb. repeat split.
  - now destruct (t =? "m")%string, (t =? "M")%string.
  - now destruct (t =? "l")%string, (t =? "L")%string.
  - intros H.
    destruct (t =? "S")%string, (t =? "s")%string, (t =? "stroke")%string;
      simpl in *; trivial; discriminate.
Qed.

Lemma operator_at_not_operator (to_float : string -> option float)
    (tokens : list string) (i : nat) :
  is_operator (nth i tokens EmptyString) = false ->
  operator_at to_float tokens i = Ignored.
Proof.
  intros H. apply not_operator in H.
  destruct H as (Hmove & Hline & Hrel & Hre & Hclose).
  unfold operator_at. now rewrite Hmove, Hline, Hrel, Hre, Hclose.
Qed.

Lemma nth_after (pre rest : list string) (j : nat) :
  nth (List.length pre + j) (pre ++ rest) EmptyString = nth j rest EmptyString.
Proof. apply app_nth2_plus. Qed.

Lemma nth_first_after (pre rest : list string) :
  nth (List.length pre) (pre ++ rest) EmptyString = nth 0 rest EmptyString.
Proof.
  rewrite <- (nth_after pre rest 0). f_equal. lia.
Qed.

Lemma operator_at_coordinate (to_float : string -> option float)
    (pre post : list string) (a b op : string) (x y : float) :
  to_float a = Some x -> to_float b = Some y ->
  coordinate_token op = true ->
  operator_at to_float (pre ++ a :: b :: op :: post) (S (S (List.length pre)))
  = if mem op move_tokens then Move x y
    else if mem op line_tokens then Line x y
    else Relative x y.
Proof.
  intros Hx Hy Hop.
  unfold operator_at, pair_of, ExtractData.back.
  replace (S (S (List.length pre)) - 2) with (List.length pre + 0) by lia.
  replace (S (S (List.length pre)) - 1) with (List.length pre + 1) by lia.
  replace (nth (S (S (List.length pre))) (pre ++ a :: b :: op :: post) EmptyString)
    with op
    by (replace (S (S (List.length pre))) with (List.length pre + 2) by lia;
        now rewrite nth_after).
  rewrite !nth_after. simpl nth. rewrite Hx, Hy.
  change (2 <=? S (S (List.length pre))) with true.
  rewrite !andb_true_r. unfold coordinate_token in Hop.
  destruct (mem op move_tokens); trivial.
  destruct (mem op line_tokens); trivial.
  cbn [orb] in Hop. now rewrite Hop.
Qed.

Lemma operator_at_stroke (to_float : string -> option float)
    (pre post : list string) (op : string) :
  mem op ExtractDataPS.stroke_tokens = true ->
  operator_at to_float (pre ++ op :: post) (List.length pre) = Close.
Proof.
  intros H. unfold operator_at.
  rewrite nth_first_after. simpl nth.
  unfold mem, ExtractDataPS.stroke_tokens in H. simpl existsb in H.
  repeat (apply orb_true_iff in H; destruct H as [H|H]);
    try discriminate H; apply String.eqb_eq in H; subst op; reflexivity.
Qed.

(** [ExtractData.py] does nothing on tokens that are no operators. *)
Lemma vec_no_operator (to_float : string -> option float)
    (run : list string) :
  no_operator run = true ->
  forall (pre post : list string) (st : state),
    fold_left (ExtractData.step to_float (pre ++ run ++ post))
      (seq (List.length pre) (List.length run)) st
    = st.
Proof.
  induction run as [|t run IH]; intros H pre post st; [reflexivity|].
  cbn [no_operator forallb] in H. apply andb_true_iff in H.
  destruct H as [Ht Hrun]. apply negb_true_iff in Ht.
  cbn [List.length seq fold_left]. rewrite step_perform.
  rewrite operator_at_not_operator
    by (rewrite nth_first_after; exact Ht).
  cbn [perform].
  replace (pre ++ (t :: run) ++ post) with ((pre ++ [t]) ++ run ++ post)
    by (now rewrite <- app_assoc).
  replace (S (List.length pre)) with (List.length (pre ++ [t]))
    by (rewrite length_app; simpl; lia).
  now apply IH.
Qed.

(** Tokens that are no operators, then more tokens. *)
Lemma vec_after_no_operator (to_float : string -> option float)
    (pre run rest post : list string) (st : state) :
  no_operator run = true ->
  fold_left (ExtractData.step to_float (pre ++ (run ++ rest) ++ post))
    (seq (List.length pre) (List.length (run ++ rest))) st
  = fold_left (ExtractData.step to_float ((pre ++ run) ++ rest ++ post))
      (seq (List.length (pre ++ run)) (List.length rest)) st.
Proof.
  intros H. rewrite length_app, seq_app, fold_left_app.
  rewrite <- (app_assoc run), (vec_no_operator to_float run H).
  rewrite <- length_app. now rewrite <- app_assoc.
Qed.

Lemma no_operator_rev (tokens : list string) :
  no_operator (rev tokens) = no_operator tokens.
Proof.
  unfold no_operator. induction tokens as [|t tokens IH]; trivial.
  simpl. rewrite forallb_app, IH. simpl.
  now rewrite andb_true_r, andb_comm.
Qed.

Lemma plain_line_shape (to_float : string -> option float)
    (tokens : list string) :
  plain_line to_float tokens = true ->
  plain_shape to_float tokens (line_operator to_float tokens).
Proof.
  unfold plain_line, line_operator. intros H.
  rewrite <- (rev_involutive tokens) at 1.
  destruct (rev tokens) as [|op before]; [now constructor|].
  destruct (mem op ExtractDataPS.stroke_tokens) eqn:Hstroke.
  - cbn [rev]. constructor; trivial. now rewrite no_operator_rev.
  - destruct (coordinate_token op) eqn:Hop.
    + destruct before as [|b [|a others]]; try discriminate H.
      apply andb_true_iff in H. destruct H as [H Hothers].
      apply andb_true_iff in H. destruct H as [Ha Hb].
      destruct (numeric_parses _ _ Ha) as (x & Hx & Hna).
      destruct (numeric_parses _ _ Hb) as (y & Hy & Hnb).
      unfold pair_of. rewrite Hx, Hy.
      replace (rev (op :: b :: a :: others)) with (rev others ++ [a; b; op])
        by (cbn [rev]; now rewrite <- !app_assoc).
      replace (if mem op move_tokens then Move x y
               else if mem op line_tokens then Line x y
               else if mem op relative_tokens then Relative x y else Ignored)
        with (if mem op move_tokens then Move x y
              else if mem op line_tokens then Line x y else Relative x y).
      * constructor; trivial. now rewrite no_operator_rev.
      * unfold coordinate_token in Hop.
        destruct (mem op move_tokens); trivial.
        destruct (mem op line_tokens); trivial.
        cbn [orb] in Hop. now rewrite Hop.
    + replace (match before with
               | b :: a :: _ =>
                   match pair_of to_float a b with
                   | Some (x, y) =>
                       if mem op move_tokens then Move x y
                       else if mem op line_tokens then Line x y
                       else if mem op relative_tokens then Relative x y
                       else Ignored
                   | None => Ignored
                   end
               | _ => Ignored
               end) with Ignored.
      * constructor. now rewrite no_operator_rev.
      * unfold coordinate_token in Hop.
        apply orb_false_iff in Hop. destruct Hop as [Hop Hrel].
        apply orb_false_iff in Hop. destruct Hop as [Hmove Hline].
        rewrite Hmove, Hline, Hrel.
        destruct before as [|b [|a others]]; trivial.
        now destruct (pair_of to_float a b) as [[x y]|].
Qed.

(** [ExtractData.py] on the tokens of a plain line that stands anywhere in
    the stream. *)
Lemma vec_plain_line (to_float : string -> option float)
    (pre tokens post : list string) (st : state) :
  plain_line to_float tokens = true ->
  fold_left (ExtractData.step to_float (pre ++ tokens ++ post))
    (seq (List.length pre) (List.length tokens)) st
  = perform st (line_operator to_float tokens).
Proof.
  intros H. apply plain_line_shape in H.
  destruct H as [run Hrun|run op Hrun Hop|run a b op x y Hrun Hna Hnb Hx Hy Hop].
  - now apply vec_no_operator.
  - rewrite (vec_after_no_operator _ _ _ _ _ _ Hrun).
    cbn [app seq fold_left List.length]. rewrite step_perform.
    now rewrite operator_at_stroke.
  - rewrite (vec_after_no_operator _ _ _ _ _ _ Hrun).
    cbn [app seq fold_left List.length]. rewrite !step_perform.
    rewrite (operator_at_not_operator to_float _ (List.length (pre ++ run)))
      by (rewrite nth_first_after; exact Hna).
    rewrite (operator_at_not_operator to_float _ (S (List.length (pre ++ run)))).
    2:{ replace (S (List.length (pre ++ run)))
          with (List.length (pre ++ run) + 1) by lia.
        rewrite nth_after. exact Hnb. }
    now rewrite (operator_at_coordinate _ _ _ _ _ _ _ _ Hx Hy Hop).
Qed.

Lemma from_end_app (run rest : list string) (k : nat) :
  k <= List.length rest ->
  ExtractDataPS.from_end (run ++ rest) k
  = nth (List.length rest - k) rest EmptyString.
Proof.
  intros H. unfold ExtractDataPS.from_end. rewrite length_app.
  replace (List.length run + List.length rest - k)
    with (List.length run + (List.length rest - k)) by lia.
  apply nth_after.
Qed.

Lemma last_not_operator (run : list string) :
  no_operator run = true ->
  is_operator (ExtractDataPS.from_end run 1) = false.
Proof.
  intros H. rewrite <- (rev_involutive run).
  rewrite <- no_operator_rev in H.
  destruct (rev run) as [|t before]; [reflexivity|].
  cbn [rev]. rewrite (from_end_app _ [t] 1) by (simpl; lia).
  cbn [no_operator forallb] in H. apply andb_true_iff in H.
  destruct H as [H _]. now apply negb_true_iff in H.
Qed.

Lemma ps_not_operator (to_float : string -> option float)
    (tokens : list string) (st : state) :
  is_operator (ExtractDataPS.from_end tokens 1) = false ->
  ExtractDataPS.exec to_float st tokens = st.
Proof.
  intros H. apply not_operator in H.
  destruct H as (Hmove & Hline & Hrel & _ & Hclose).
  destruct (ps_tokens (ExtractDataPS.from_end tokens 1))
    as (Emove & Eline & Erel & Estroke).
  unfold ExtractDataPS.exec. destruct tokens as [|t tokens]; trivial.
  now rewrite Emove, Eline, Erel, Hmove, Hline, Hrel, (Estroke Hclose).
Qed.

(** [ExtractDataPS.py] on a plain line. *)
Lemma ps_plain_line (to_float : string -> option float)
    (tokens : list string) (st : state) :
  plain_line to_float tokens = true ->
  ExtractDataPS.exec to_float st tokens
  = ps_perform st (line_operator to_float tokens).
Proof.
  intros H. apply plain_line_shape in H.
  destruct H as [run Hrun|run op Hrun Hop|run a b op x y Hrun Hna Hnb Hx Hy Hop].
  - now apply ps_not_operator, last_not_operator.
  - unfold ExtractDataPS.exec.
    destruct (run ++ [op]) as [|t l] eqn:E; [now destruct run|].
    rewrite <- E. rewrite (from_end_app run [op] 1) by (simpl; lia).
    simpl nth.
    unfold mem, ExtractDataPS.stroke_tokens in Hop. simpl existsb in Hop.
    repeat (apply orb_true_iff in Hop; destruct Hop as [Hop|Hop]);
      try discriminate Hop; apply String.eqb_eq in Hop; subst op; reflexivity.
  - unfold ExtractDataPS.exec.
    destruct (run ++ [a; b; op]) as [|t l] eqn:E; [now destruct run|].
    rewrite <- E.
    rewrite (from_end_app run [a; b; op] 1), (from_end_app run [a; b; op] 2),
      (from_end_app run [a; b; op] 3) by (simpl; lia).
    simpl nth. rewrite Hx, Hy.
    rewrite (leb_true_of_le 3 (List.length (run ++ [a; b; op])))
      by (rewrite length_app; simpl; lia).
    unfold coordinate_token in Hop.
    repeat (apply orb_true_iff in Hop; destruct Hop as [Hop|Hop]);
      token_cases Hop; subst op; known_token;
      unfold ps_perform, perform, seed_bounded;
      destruct (current_segment st); reflexivity.
Qed.

(** *** All lines *)

Lemma vec_plain_lines (to_float : string -> option float)
    (lines : list (list string)) :
  forallb (plain_line to_float) lines = true ->
  forall (pre post : list string) (st : state),
    fold_left (ExtractData.step to_float (pre ++ List.concat lines ++ post))
      (seq (List.length pre) (List.length (List.concat lines))) st
    = fold_left perform (map (line_operator to_float) lines) st.
Proof.
  induction lines as [|l lines IH]; intros H pre post st.
  - reflexivity.
  - cbn [forallb] in H. apply andb_true_iff in H. destruct H as [Hl Hlines].
    cbn [List.concat map fold_left].
    rewrite length_app, seq_app, fold_left_app.
    rewrite <- (app_assoc l), vec_plain_line by exact Hl.
    replace (pre ++ l ++ List.concat lines ++ post)
      with ((pre ++ l) ++ List.concat lines ++ post)
      by now rewrite <- app_assoc.
    rewrite <- length_app. now apply IH.
Qed.

Lemma ps_plain_lines (to_float : string -> option float)
    (lines : list string) :
  forallb (plain_line to_float) (map (fun line => split (strip line)) lines)
    = true ->
  forall st : state,
    fold_left (ExtractDataPS.step to_float) lines st
    = fold_left ps_perform
        (map (line_operator to_float)
           (map (fun line => split (strip line)) lines)) st.
Proof.
  induction lines as [|l lines IH]; intros H st.
  - reflexivity.
  - cbn [map forallb] in H. apply andb_true_iff in H. destruct H as [Hl Hlines].
    cbn [map fold_left]. unfold ExtractDataPS.step at 2.
    rewrite ps_plain_line by exact Hl. now apply IH.
Qed.

Lemma line_operator_no_rectangle (to_float : string -> option float)
    (lines : list (list string)) :
  Forall no_rectangle (map (line_operator to_float) lines).
Proof.
  induction lines as [|l lines IH]; constructor; trivial.
  unfold line_operator.
  destruct (rev l) as [|op [|b [|a others]]]; try exact I;
    destruct (mem op ExtractDataPS.stroke_tokens); try exact I.
  destruct (pair_of to_float a b) as [[x y]|]; try exact I.
  destruct (mem op move_tokens); try exact I.
  destruct (mem op line_tokens); try exact I.
  now destruct (mem op relative_tokens).
Qed.

(** *** Segments *)

Lemma perform_same_paths (st1 st2 : state) (op : operator) :
  no_rectangle op -> same_paths st1 st2 ->
  same_paths (perform st1 op) (ps_perform st2 op).
Proof.
  intros Hop H.
  destruct st1 as [a1 c1 b1 x1 y1], st2 as [a2 c2 b2 x2 y2].
  unfold same_paths in H. simpl in H. destruct H as (-> & -> & -> & ->).
  destruct op; try contradiction;
    unfold same_paths, ps_perform, perform, close_segment, seed, seed_bounded;
    simpl; destruct c2; simpl; repeat split; reflexivity.
Qed.

Lemma fold_same_paths (ops : list operator) :
  Forall no_rectangle ops ->
  forall st1 st2 : state,
    same_paths st1 st2 ->
    same_paths (fold_left perform ops st1) (fold_left ps_perform ops st2).
Proof.
  induction 1 as [|op ops Hop _ IH]; intros st1 st2 H; simpl; trivial.
  apply IH. now apply perform_same_paths.
Qed.

Lemma close_same_paths (st1 st2 : state) :
  same_paths st1 st2 ->
  all_segments (close_segment st1) = all_segments (close_segment st2).
Proof.
  intros (Ha & Hc & _). unfold close_segment. rewrite Hc.
  destruct (current_segment st2); simpl; now rewrite Ha.
Qed.

(** *** Bounding box *)

Lemma keep_least_again (v : float) (b : option float) :
  keep_least v (keep_least v b) = keep_least v b.
Proof.
  destruct b as [m|]; simpl.
  - destruct (v <? m)%float eqn:H; simpl; [|rewrite H]; trivial.
    now destruct (v <? v)%float.
  - now destruct (v <? v)%float.
Qed.

Lemma keep_greatest_again (v : float) (b : option float) :
  keep_greatest v (keep_greatest v b) = keep_greatest v b.
Proof.
  destruct b as [m|]; simpl.
  - destruct (m <? v)%float eqn:H; simpl; [|rewrite H]; trivial.
    now destruct (v <? v)%float.
  - now destruct (v <? v)%float.
Qed.

Lemma update_bounds_again (b : bounds) (x y : float) :
  update_bounds (update_bounds b x y) x y = update_bounds b x y.
Proof.
  unfold update_bounds. simpl.
  now rewrite !keep_least_again, !keep_greatest_again.
Qed.

(** After an operator that moves the cursor, the cursor is in the box. *)
Lemma perform_anchors (st : state) (op : operator) :
  match op with
  | Move _ _ | Line _ _ | Relative _ _ => anchored (perform st op)
  | _ => True
  end.
Proof.
  destruct op; trivial; unfold anchored; simpl; apply update_bounds_again.
Qed.

Lemma perform_anchored (st : state) (op : operator) :
  no_rectangle op -> anchored st ->
  perform st op = ps_perform st op /\ anchored (perform st op).
Proof.
  intros Hop H. destruct op; try contradiction.
  - split; [reflexivity | apply (perform_anchors st (Move x y))].
  - split; [| apply (perform_anchors st (Line x y))].
    unfold perform, ps_perform, seed, seed_bounded.
    destruct st as [a c b cx cy]. unfold anchored in H. simpl in H.
    destruct c; simpl; trivial. now rewrite H.
  - split; [reflexivity | apply (perform_anchors st (Relative dx dy))].
  - split; [reflexivity |].
    unfold anchored, perform, close_segment in *.
    now destruct (current_segment st).
  - split; [reflexivity | exact H].
Qed.

Lemma fold_equal (ops : list operator) :
  Forall no_rectangle ops ->
  forall st : state,
    anchored st \/ (current_segment st = [] /\ starts_with_line ops = false) ->
    fold_left perform ops st = fold_left ps_perform ops st.
Proof.
  induction 1 as [|op ops Hop _ IH]; intros st H; simpl; trivial.
  destruct H as [H|[Hcur Hfirst]].
  - destruct (perform_anchored st op Hop H) as [Heq Hanch].
    rewrite <- Heq. apply IH. now left.
  - destruct op; try contradiction; try discriminate Hfirst.
    + apply IH. left. apply (perform_anchors st (Move x y)).
    + apply IH. left. apply (perform_anchors st (Relative dx dy)).
    + simpl in Hfirst. unfold ps_perform, perform, close_segment.
      rewrite Hcur. apply IH. now right.
    + simpl in Hfirst. apply IH. now right.
Qed.

Lemma line_first_operators (to_float : string -> option float)
    (lines : list (list string)) :
  forallb (plain_line to_float) lines = true ->
  starts_with_line (map (line_operator to_float) lines) = line_first lines.
Proof.
  induction lines as [|l lines IH]; intros H; trivial.
  cbn [forallb] in H. apply andb_true_iff in H. destruct H as [Hl Hlines].
  specialize (IH Hlines). cbn [map line_first].
  apply plain_line_shape in Hl.
  destruct Hl as [run Hrun|run op Hrun Hop|run a b op x y Hrun Hna Hnb Hx Hy Hop].
  - cbn [starts_with_line]. rewrite IH.
    assert (Hlast : is_operator (hd EmptyString (rev run)) = false).
    { rewrite <- no_operator_rev in Hrun.
      destruct (rev run) as [|t before]; [reflexivity|].
      cbn [no_operator forallb] in Hrun. apply andb_true_iff in Hrun.
      destruct Hrun as [Hrun _]. now apply negb_true_iff in Hrun. }
    apply not_operator in Hlast.
    destruct Hlast as (Hmove & Hline & Hrel & _).
    now rewrite Hmove, Hline, Hrel.
  - cbn [starts_with_line]. rewrite IH, rev_app_distr. cbn [rev app hd].
    unfold mem, ExtractDataPS.stroke_tokens in Hop. simpl existsb in Hop.
    repeat (apply orb_true_iff in Hop; destruct Hop as [Hop|Hop]);
      try discriminate Hop; apply String.eqb_eq in Hop; subst op; reflexivity.
  - rewrite rev_app_distr. cbn [rev app hd].
    unfold coordinate_token in Hop.
    repeat (apply orb_true_iff in Hop; destruct Hop as [Hop|Hop]);
      token_cases Hop; subst op; reflexivity.
Qed.

(** C4, as amended. On operator text without comments in which every line
    holds at most one operator, as its last token, and that operator is
    [stroke] or [S], or a move, line or relative operator with two numbers
    before it on its line, both scripts assemble the same segments; they end
    in the same state, bounding box included, unless the first operator that
    moves the cursor is a line. *)
Theorem one_operator_per_line_agree
    (to_float : string -> option float) (text : string) :
  one_operator_per_line to_float text = true ->
  let vec := ExtractData.assemble to_float (ExtractData.tokenize text) in
  let ps := ExtractDataPS.assemble to_float (readlines text) in
  all_segments vec = all_segments ps
  /\ (line_first (token_lines text) = false -> vec = ps).
Proof.
  intros H vec ps. unfold one_operator_per_line in H.
  apply andb_true_iff in H. destruct H as [Hpercent Hplain].
  assert (Hvec : vec = close_segment
                   (fold_left perform
                      (map (line_operator to_float) (token_lines text)) initial)).
  { unfold vec, ExtractData.assemble, ExtractData.loop.
    rewrite (tokenize_token_lines _ Hpercent).
    pose proof (vec_plain_lines to_float _ Hplain [] [] initial) as Hloop.
    cbn [app List.length] in Hloop. rewrite app_nil_r in Hloop.
    now rewrite Hloop. }
  assert (Hps : ps = close_segment
                  (fold_left ps_perform
                     (map (line_operator to_float) (token_lines text)) initial)).
  { unfold ps, ExtractDataPS.assemble.
    now rewrite (ps_plain_lines to_float (readlines text) Hplain initial). }
  rewrite Hvec, Hps. split.
  - apply close_same_paths, fold_same_paths.
    + apply line_operator_no_rectangle.
    + repeat split.
  - intros Hfirst. f_equal. apply fold_equal.
    + apply line_operator_no_rectangle.
    + right. split; trivial.
      now rewrite (line_first_operators to_float _ Hplain).
Qed.

Lemma one_operator_per_line_agree_witness :
  let text := "newpath
0.5 setlinewidth
10 10 m
10 50 l
5 -5 R
stroke
gsave 0 0 moveto
1 1 rlineto
showpage
" in
  one_operator_per_line float_of_string text = true
  /\ line_first (token_lines text) = false
  /\ vec_assemble text = ps_assemble text
  /\ all_segments (vec_assemble text)
     = [[(10, 10); (10, 50); (15, 45)]; [(0, 0); (1, 1)]]%float.
Proof.
  cbv zeta.
  assert (H : one_operator_per_line float_of_string "newpath
0.5 setlinewidth
10 10 m
10 50 l
5 -5 R
stroke
gsave 0 0 moveto
1 1 rlineto
showpage
" = true) by (vm_compute; reflexivity).
  split; [exact H|]. split; [vm_compute; reflexivity|].
  split; [|vm_compute; reflexivity].
  apply (proj2 (one_operator_per_line_agree float_of_string _ H)).
  vm_compute. reflexivity.
Defined.

(** C4 as stated fails on operators that share a line, of which
    [ExtractDataPS.py] reads the last only; on a rectangle and on [h], which
    it does not know; on a comment, which it does not strip; and, for the
    bounding box, on a line operator that comes first. *)
Lemma same_line_operators_differ :
  (all_segments (vec_assemble "10 10 m 10 50 l 90 90 l stroke")
   = [[(10, 10); (10, 50); (90, 90)]%float]
   /\ all_segments (ps_assemble "10 10 m 10 50 l 90 90 l stroke") = [])
  /\ (List.length (all_segments (vec_assemble "5 5 10 20 re")) = 1
      /\ all_segments (ps_assemble "5 5 10 20 re") = [])
  /\ (let text := "1 1 m
2 2 l
h
3 3 l" in
      List.length (all_segments (vec_assemble text)) = 2
      /\ List.length (all_segments (ps_assemble text)) = 1)
  /\ (let text := "1 1 m % 2 2 l" in
      all_segments (vec_assemble text) = []
      /\ all_segments (ps_assemble text) = [[(0, 0); (2, 2)]%float])
  /\ (xmin (ps_bounds (vec_assemble "5 5 l")) = Some 5%float
      /\ xmin (ps_bounds (ps_assemble "5 5 l")) = Some 0%float).
Proof.
  repeat split; vm_compute; reflexivity.
Qed.

(** ** Binary64 arithmetic *)

Lemma shr_1_digits (s : shr_record) :
  Zdigits2 (shr_m (shr_1 s)) = Z.max 0 (Zdigits2 (shr_m s) - 1)%Z.
Proof.
  destruct s as [m r t]. unfold shr_1.
  destruct m as [|p|p]; try (simpl; lia);
    destruct p; unfold Zdigits2, shr_m, digits2_pos; lia.
Qed.

Lemma shr_digits (p : positive) :
  forall s : shr_record,
    Zdigits2 (shr_m (iter_pos shr_1 p s))
    = Z.max 0 (Zdigits2 (shr_m s) - Z.pos p)%Z.
Proof.
  induction p as [p IH|p IH|]; intros s; simpl.
  - rewrite !IH, shr_1_digits. lia.
  - rewrite !IH. lia.
  - apply shr_1_digits.
Qed.

Lemma shr_1_nonneg (s : shr_record) :
  (0 <= shr_m s)%Z -> (0 <= shr_m (shr_1 s))%Z.
Proof.
  destruct s as [m r t]. unfold shr_1.
  destruct m as [|p|p]; simpl; try lia; destruct p; simpl; lia.
Qed.

Lemma shr_nonneg (p : positive) :
  forall s : shr_record,
    (0 <= shr_m s)%Z -> (0 <= shr_m (iter_pos shr_1 p s))%Z.
Proof.
  induction p as [p IH|p IH|]; intros s H; simpl.
  - now apply IH, IH, shr_1_nonneg.
  - now apply IH, IH.
  - now apply shr_1_nonneg.
Qed.

Lemma digits_positive (z : Z) : (0 < Zdigits2 z)%Z -> (0 <= z)%Z -> (0 < z)%Z.
Proof. destruct z; simpl; lia. Qed.

Lemma shr_record_of_loc_m (m : Z) (l : location) :
  shr_m (shr_record_of_loc m l) = m.
Proof. destruct l as [|[| |]]; reflexivity. Qed.

(** A positive mantissa at an exponent not below [emin] stays positive when
    it is shifted to its canonical exponent. *)
Lemma shr_fexp_positive (m : positive) (e : Z) (l : location) :
  (emin <= e)%Z ->
  exists m' e',
    shr_m (fst (shr_fexp prec emax (Z.pos m) e l)) = Z.pos m'
    /\ snd (shr_fexp prec emax (Z.pos m) e l) = e'
    /\ (emin <= e')%Z.
Proof.
  intros He. unfold shr_fexp, shr.
  destruct (fexp prec emax (Zdigits2 (Z.pos m) + e) - e)%Z as [|p|p] eqn:Hn.
  - exists m, e. simpl. now rewrite shr_record_of_loc_m.
  - assert (Hpos : (0 < shr_m (iter_pos shr_1 p (shr_record_of_loc (Z.pos m) l)))%Z).
    { apply digits_positive.
      - rewrite shr_digits, shr_record_of_loc_m.
        revert Hn He. unfold fexp, SpecFloat.emin, emax, prec. simpl Zdigits2. lia.
      - apply shr_nonneg. rewrite shr_record_of_loc_m. lia. }
    simpl fst. simpl snd.
    destruct (shr_m (iter_pos shr_1 p (shr_record_of_loc (Z.pos m) l)))
      as [|m'|m'] eqn:Hm; try lia.
    exists m', (e + Z.pos p)%Z. repeat split. lia.
  - exists m, e. simpl. now rewrite shr_record_of_loc_m.
Qed.

Lemma round_nearest_even_positive (m : positive) (l : location) :
  exists m', round_nearest_even (Z.pos m) l = Z.pos m'.
Proof.
  destruct l as [|[| |]]; simpl; eauto.
  destruct m; simpl; eauto.
Qed.

Lemma binary_round_aux_nonzero (s : bool) (m : positive) (e : Z) (l : location) :
  (emin <= e)%Z ->
  forall s', binary_round_aux prec emax s (Z.pos m) e l <> S754_zero s'.
Proof.
  intros He s'. unfold binary_round_aux.
  destruct (shr_fexp_positive m e l He) as (m1 & e1 & Hm1 & He1 & Hle1).
  destruct (shr_fexp prec emax (Z.pos m) e l) as [mrs1 e1'].
  simpl in Hm1, He1. subst e1'. rewrite Hm1.
  destruct (round_nearest_even_positive m1 (loc_of_shr_record mrs1)) as (m2 & Hm2).
  rewrite Hm2.
  destruct (shr_fexp_positive m2 e1 loc_Exact Hle1) as (m3 & e3 & Hm3 & He3 & _).
  destruct (shr_fexp prec emax (Z.pos m2) e1 loc_Exact) as [mrs3 e3'].
  simpl in Hm3, He3. subst e3'. rewrite Hm3.
  now destruct (e3 <=? emax - prec)%Z.
Qed.

Lemma binary_round_nonzero (s : bool) (m : positive) (e : Z) :
  (emin <= e)%Z ->
  forall s', binary_round prec emax s m e <> S754_zero s'.
Proof.
  intros He s'. unfold binary_round, shl_align.
  destruct (fexp prec emax (Z.pos (digits2_pos m) + e) - e)%Z eqn:Hn;
    apply binary_round_aux_nonzero; trivial.
  revert Hn. unfold fexp. lia.
Qed.

Lemma binary_normalize_zero (m e : Z) (s s' : bool) :
  (emin <= e)%Z ->
  binary_normalize prec emax m e s = S754_zero s' -> m = 0%Z.
Proof.
  intros He H. destruct m as [|p|p]; trivial; simpl in H;
    now apply binary_round_nonzero in H.
Qed.

Lemma digits_shift (d m : positive) :
  digits2_pos (Pos.iter xO m d) = (digits2_pos m + d)%positive.
Proof.
  revert m. induction d as [d IH|d IH|]; intros m; simpl.
  - rewrite !IH. lia.
  - rewrite !IH. lia.
  - lia.
Qed.

(** The canonical exponent of a valid finite number. *)
Lemma valid_canonical (s : bool) (m : positive) (e : Z) :
  valid_binary (S754_finite s m e) = true ->
  fexp prec emax (Z.pos (digits2_pos m) + e) = e /\ (e <= emax - prec)%Z.
Proof.
  unfold valid_binary, SpecFloat.valid_binary, bounded, canonical_mantissa.
  intros H. apply andb_true_iff in H. destruct H as [H1 H2].
  apply Z.eqb_eq in H1. apply Z.leb_le in H2. now split.
Qed.

Lemma compare_self (e : Z) (m : positive) :
  (e ?= e)%Z = Eq /\ Pos.compare_cont Eq m m = Eq.
Proof.
  split; [apply Z.compare_refl | apply Pos.compare_cont_refl].
Qed.

(** Two valid finite numbers whose mantissas agree once aligned are the same
    number. *)
Lemma aligned_equal (mx my : positive) (ex ey : Z) :
  fexp prec emax (Z.pos (digits2_pos mx) + ex) = ex ->
  fexp prec emax (Z.pos (digits2_pos my) + ey) = ey ->
  fst (shl_align mx ex (Z.min ex ey)) = fst (shl_align my ey (Z.min ex ey)) ->
  mx = my /\ ex = ey.
Proof.
  intros Hx Hy H. unfold shl_align in H.
  destruct (Z.min ex ey - ex)%Z as [|d|d] eqn:Hdx;
    destruct (Z.min ex ey - ey)%Z as [|d'|d'] eqn:Hdy; try lia; simpl in H.
  - split; [exact H | lia].
  - subst mx. rewrite digits_shift in Hx.
    assert (ex = ey); [|lia].
    rewrite <- Hx, <- Hy. f_equal. lia.
  - subst my. rewrite digits_shift in Hy.
    assert (ex = ey); [|lia].
    rewrite <- Hx, <- Hy. f_equal. lia.
Qed.

(** A difference of valid numbers that is zero is a difference of equal
    numbers. *)
Lemma SFsub_zero (x y : spec_float) (s : bool) :
  valid_binary x = true -> valid_binary y = true ->
  SFsub prec emax x y = S754_zero s -> SFeqb x y = true.
Proof.
  intros Vx Vy H.
  destruct x as [sx|sx| |sx mx ex], y as [sy|sy| |sy my ey];
    try discriminate H; try reflexivity;
    try (simpl in H; destruct sx, sy; discriminate H).
  destruct (valid_canonical _ _ _ Vx) as [Cx _].
  destruct (valid_canonical _ _ _ Vy) as [Cy _].
  simpl in H. apply binary_normalize_zero in H.
  2:{ rewrite <- Cx, <- Cy. unfold fexp. lia. }
  assert (Hs : sx = sy).
  { unfold cond_Zopp in H. destruct sx, sy; trivial; lia. }
  subst sy.
  assert (Hm : fst (shl_align mx ex (Z.min ex ey))
               = fst (shl_align my ey (Z.min ex ey))).
  { apply Pos2Z.inj. unfold cond_Zopp in H. destruct sx; lia. }
  destruct (aligned_equal _ _ _ _ Cx Cy Hm) as [-> ->].
  unfold SFeqb, SFcompare.
  destruct (compare_self ey my) as [-> ->]. now destruct sx.
Qed.

Lemma SFeqb_zero (x : spec_float) :
  SFeqb x (S754_zero false) = true -> exists s, x = S754_zero s.
Proof.
  destruct x as [s|s| |s m e]; try discriminate.
  - now exists s.
  - now destruct s.
  - now destruct s.
Qed.

(** Floats that differ have a difference that is not zero. *)
Lemma sub_eq_zero (x y : float) :
  (x - y =? 0)%float = true -> (x =? y)%float = true.
Proof.
  rewrite !eqb_spec, sub_spec. intros H.
  apply SFeqb_zero in H. destruct H as [s H].
  apply (SFsub_zero _ _ s); trivial; apply Prim2SF_valid.
Qed.

Lemma differ_sub_nonzero (x y : float) :
  (x =? y)%float = false -> (x - y =? 0)%float = false.
Proof.
  intros H. destruct (x - y =? 0)%float eqn:Hz; trivial.
  apply sub_eq_zero in Hz. congruence.
Qed.

Lemma is_finite_spec (x : float) :
  is_finite x = true -> sf_finite (Prim2SF x).
Proof.
  unfold is_finite, is_nan, is_infinity.
  rewrite !eqb_spec, abs_spec.
  change (Prim2SF infinity) with (S754_infinity false).
  destruct (Prim2SF x) as [s|s| |s m e]; simpl; trivial; try discriminate.
  now destruct s.
Qed.

Lemma SFsub_finite (x y : spec_float) :
  sf_finite (SFsub prec emax x y) -> sf_finite x /\ sf_finite y.
Proof.
  destruct x as [sx|sx| |sx mx ex], y as [sy|sy| |sy my ey]; simpl;
    try tauto; destruct sx, sy; simpl; tauto.
Qed.

Lemma SFsub_self (x : spec_float) :
  sf_finite x -> SFsub prec emax x x = S754_zero false.
Proof.
  destruct x as [s|s| |s m e]; try contradiction; intros _.
  - now destruct s.
  - unfold SFsub. now rewrite Z.sub_diag.
Qed.

Lemma SFeqb_self (x : spec_float) : sf_finite x -> SFeqb x x = true.
Proof.
  destruct x as [s|s| |s m e]; try contradiction; intros _; trivial.
  unfold SFeqb, SFcompare. destruct (compare_self e m) as [-> ->].
  now destruct s.
Qed.

(** Zero times the range, plus the lower bound, is the lower bound. *)
Lemma SF_zero_scaled (s : bool) (r u : spec_float) :
  sf_finite r -> sf_finite u ->
  SFeqb (SFadd prec emax (SFmul prec emax (S754_zero s) r) u) u = true.
Proof.
  intros Hr Hu.
  destruct r as [sr|sr| |sr mr er]; try contradiction;
    destruct u as [su|su| |su mu eu]; try contradiction; simpl;
    try (destruct (xorb s sr), su; reflexivity);
    apply (SFeqb_self (S754_finite su mu eu) I).
Qed.

Lemma SFdiv_self (s : bool) (m : positive) (e : Z) :
  SFdiv prec emax (S754_finite s m e) (S754_finite s m e) = Prim2SF 1.
Proof.
  unfold SFdiv, SFdiv_core_binary.
  replace (Zdigits2 (Z.pos m) + e - (Zdigits2 (Z.pos m) + e))%Z with 0%Z by lia.
  rewrite Z.sub_diag.
  change (Z.min (fexp prec emax 0) 0) with (-53)%Z.
  change (0 - -53)%Z with 53%Z. cbv iota.
  rewrite Z.shiftl_mul_pow2 by lia.
  rewrite (surjective_pairing (Z.div_eucl (Z.pos m * 2 ^ 53) (Z.pos m))).
  change (fst (Z.div_eucl (Z.pos m * 2 ^ 53) (Z.pos m)))
    with ((Z.pos m * 2 ^ 53) / Z.pos m)%Z.
  change (snd (Z.div_eucl (Z.pos m * 2 ^ 53) (Z.pos m)))
    with ((Z.pos m * 2 ^ 53) mod Z.pos m)%Z.
  rewrite (Z.mul_comm (Z.pos m)), Z.div_mul, Z.mod_mul by lia.
  replace (new_location (Z.pos m) 0) with loc_Exact
    by (unfold new_location; now destruct (Z.even (Z.pos m))).
  rewrite xorb_nilpotent. vm_compute. reflexivity.
Qed.

Lemma shr_shifted (d : positive) :
  forall m : positive,
    iter_pos shr_1 d (Build_shr_record (Z.pos (Pos.iter xO m d)) false false)
    = Build_shr_record (Z.pos m) false false.
Proof.
  induction d as [d IH|d IH|]; intros m; simpl.
  - now rewrite !IH.
  - now rewrite !IH.
  - reflexivity.
Qed.

Lemma SFmul_one (x : spec_float) :
  valid_binary x = true -> SFmul prec emax (Prim2SF 1) x = x.
Proof.
  intros V. change (Prim2SF 1) with (S754_finite false 4503599627370496 (-52)).
  destruct x as [s|s| |s m e]; trivial.
  destruct (valid_canonical _ _ _ V) as [C B].
  unfold SFmul, binary_round_aux, shr_fexp.
  change (4503599627370496 * m)%positive with (Pos.iter xO m 52).
  unfold Zdigits2. rewrite digits_shift.
  replace (fexp prec emax (Z.pos (digits2_pos m + 52) + (-52 + e)) - (-52 + e))%Z
    with 52%Z
    by (replace (Z.pos (digits2_pos m + 52) + (-52 + e))%Z
          with (Z.pos (digits2_pos m) + e)%Z by lia; rewrite C; lia).
  unfold shr at 1. cbn [shr_record_of_loc]. rewrite shr_shifted.
  cbn [shr_m loc_of_shr_record round_nearest_even].
  replace (-52 + e + 52)%Z with e by lia.
  rewrite C, Z.sub_diag. cbn [shr shr_record_of_loc shr_m].
  apply Z.leb_le in B. now rewrite B.
Qed.

Lemma mul_one (x : float) : (1 * x)%float = x.
Proof.
  apply Prim2SF_inj. rewrite mul_spec.
  apply SFmul_one, Prim2SF_valid.
Qed.

(** A quotient of a finite number that is not zero by itself is one. *)
Lemma div_self (d : float) :
  is_finite d = true -> (d =? 0)%float = false -> (d / d)%float = 1%float.
Proof.
  intros Hfin Hnz. apply Prim2SF_inj. rewrite div_spec.
  apply is_finite_spec in Hfin. rewrite eqb_spec in Hnz.
  destruct (Prim2SF d) as [s|s| |s m e]; try contradiction.
  - discriminate Hnz.
  - apply SFdiv_self.
Qed.

(** A finite number minus itself, divided by a finite number that is not
    zero, scaled by a finite range and shifted by the lower bound, is the
    lower bound. *)
Lemma lower_end (p d r u : float) :
  is_finite p = true -> is_finite d = true -> (d =? 0)%float = false ->
  is_finite r = true -> is_finite u = true ->
  ((p - p) / d * r + u =? u)%float = true.
Proof.
  intros Hp Hd Hnz Hr Hu.
  apply is_finite_spec in Hp, Hd, Hr, Hu.
  rewrite eqb_spec in Hnz.
  rewrite eqb_spec, add_spec, mul_spec, div_spec, sub_spec.
  unfold SF64add, SF64mul, SF64div, SF64sub.
  rewrite (SFsub_self _ Hp).
  destruct (Prim2SF d) as [sd|sd| |sd md ed]; try contradiction.
  - discriminate Hnz.
  - unfold SFdiv. now apply SF_zero_scaled.
Qed.

Lemma sub_finite (a b : float) :
  is_finite (a - b) = true -> sf_finite (Prim2SF a) /\ sf_finite (Prim2SF b).
Proof.
  intros H. apply is_finite_spec in H. rewrite sub_spec in H.
  unfold SF64sub in H. now apply SFsub_finite.
Qed.

Lemma sf_finite_is_finite (x : float) :
  sf_finite (Prim2SF x) -> is_finite x = true.
Proof.
  unfold is_finite, is_nan, is_infinity.
  rewrite !eqb_spec, abs_spec.
  change (Prim2SF infinity) with (S754_infinity false).
  intros H. rewrite (SFeqb_self _ H).
  destruct (Prim2SF x) as [s|s| |s m e]; try contradiction; reflexivity.
Qed.

(** ** The calibration mapper *)

(** C3, as amended. In logarithmic mode on an axis whose page bounds differ,
    a user bound that is zero or negative makes [convert_value] print the
    error about the log scale and exit with status 1: no value is returned. *)
Theorem nonpositive_log_bound_is_fatal
    (log10 : float -> float) (pow10 : float -> option float)
    (val ps_min ps_max user_min user_max : float) :
  (ps_max =? ps_min)%float = false ->
  (user_min <=? 0)%float = true \/ (user_max <=? 0)%float = true ->
  convert_value log10 pow10 val ps_min ps_max user_min user_max true
  = ([ErrLogLimits], SysExit 1%Z).
Proof.
  intros Hdiff Hbad. unfold convert_value, truediv, math_log10.
  rewrite Hdiff, (differ_sub_nonzero _ _ Hdiff).
  destruct (user_min <=? 0)%float eqn:Hmin; [reflexivity|].
  destruct Hbad as [Hbad|Hbad]; [discriminate Hbad|].
  now rewrite Hbad.
Qed.

Lemma nonpositive_log_bound_is_fatal_witness :
  (140 =? 0)%float = false
  /\ (0 <=? 0)%float = true
  /\ convert_value (fun x => x) (fun x => Some x) 7 0 140 0 10 true
     = ([ErrLogLimits], SysExit 1%Z).
Proof.
  split; [reflexivity|]. split; [reflexivity|].
  apply (nonpositive_log_bound_is_fatal (fun x => x) (fun x => Some x)
           7 0 140 0 10).
  - reflexivity.
  - left. reflexivity.
Defined.

(** C3 as stated fails on a degenerate axis: in logarithmic mode with the
    lower bound -1, [user_min] is returned and nothing is reported. *)
Lemma degenerate_log_axis_returns_bound :
  (-1 <=? 0)%float = true
  /\ (5 =? 5)%float = true
  /\ (forall (log10 : float -> float) (pow10 : float -> option float)
             (val : float),
         convert_value log10 pow10 val 5 5 (-1) 10 true
         = ([], Returned (-1)%float)).
Proof.
  split; [reflexivity|]. split; [reflexivity|]. intros. reflexivity.
Qed.

(** C8, as amended. In linear mode, with page bounds that differ by a finite
    amount and user bounds that differ by a finite amount, the lower page
    bound is mapped to a number equal to [user_min], and the upper page bound
    to the binary64 sum [(user_max - user_min) + user_min], which is
    [user_max] only when that subtraction and addition round back to it. *)
Theorem linear_endpoints
    (log10 : float -> float) (pow10 : float -> option float)
    (ps_min ps_max user_min user_max : float) :
  (ps_max =? ps_min)%float = false ->
  is_finite (ps_max - ps_min) = true ->
  is_finite (user_max - user_min) = true ->
  (exists v,
      convert_value log10 pow10 ps_min ps_min ps_max user_min user_max false
      = ([], Returned v)
      /\ (v =? user_min)%float = true)
  /\ convert_value log10 pow10 ps_max ps_min ps_max user_min user_max false
     = ([], Returned (user_max - user_min + user_min)%float).
Proof.
  intros Hdiff Hpage Huser.
  pose proof (differ_sub_nonzero _ _ Hdiff) as Hnz.
  destruct (sub_finite _ _ Hpage) as [_ Hmin].
  destruct (sub_finite _ _ Huser) as [_ Humin].
  unfold convert_value, truediv. rewrite Hdiff, Hnz. split.
  - eexists. split; [reflexivity|].
    apply lower_end; trivial; now apply sf_finite_is_finite.
  - rewrite (div_self _ Hpage Hnz). cbn [bind lift ret fst snd app].
    now rewrite mul_one.
Qed.

Lemma linear_endpoints_witness :
  (140 =? 0)%float = false
  /\ is_finite (140 - 0) = true
  /\ is_finite (1 - -1) = true
  /\ convert_value (fun x => x) (fun x => Some x) 140 0 140 (-1) 1 false
     = ([], Returned (1 - -1 + -1)%float).
Proof.
  split; [reflexivity|]. split; [reflexivity|]. split; [reflexivity|].
  apply (proj2 (linear_endpoints (fun x => x) (fun x => Some x) 0 140 (-1) 1
                  eq_refl eq_refl eq_refl)).
Defined.

(** C8 as stated fails at the upper end: with the user bounds -1 and 0.1 the
    upper page bound is mapped to 0.10000000000000009, which is not 0.1. It
    fails at the lower end when the difference of the user bounds overflows,
    and at the upper end when the difference of the page bounds does: the
    result is NaN. *)
Lemma upper_endpoint_is_rounded :
  (10 =? 0)%float = false
  /\ (forall (log10 : float -> float) (pow10 : float -> option float),
         convert_value log10 pow10 10 0 10 (-1) 0.1 false
         = ([], Returned 0.10000000000000009%float))
  /\ (0.10000000000000009 =? 0.1)%float = false
  /\ (forall (log10 : float -> float) (pow10 : float -> option float),
         convert_value log10 pow10 0 0 10 (-1e308) 1e308 false
         = ([], Returned nan))
  /\ (1e308 =? -1e308)%float = false
  /\ (forall (log10 : float -> float) (pow10 : float -> option float),
         convert_value log10 pow10 1e308 (-1e308) 1e308 0 1 false
         = ([], Returned nan)).
Proof.
  repeat split.
Qed.

(** * Further properties *)

(** ** The order of floats *)

Lemma SFltb_irrefl (x : spec_float) : SFltb x x = false.
Proof.
  destruct x as [s|s| |s m e]; trivial.
  - now destruct s.
  - unfold SFltb, SFcompare. destruct (compare_self e m) as [-> ->].
    now destruct s.
Qed.

Lemma ltb_irrefl (x : float) : (x <? x)%float = false.
Proof. rewrite ltb_spec. apply SFltb_irrefl. Qed.

Lemma SFltb_trans (x y z : spec_float) :
  SFltb x y = true -> SFltb y z = true -> SFltb x z = true.
Proof.
  unfold SFltb, SFcompare.
  destruct x as [sx|sx| |sx mx ex], y as [sy|sy| |sy my ey],
    z as [sz|sz| |sz mz ez];
    try discriminate; try (destruct sx, sy, sz; simpl; congruence).
  change (Pos.compare_cont Eq mx my) with (mx ?= my)%positive.
  change (Pos.compare_cont Eq my mz) with (my ?= mz)%positive.
  change (Pos.compare_cont Eq mx mz) with (mx ?= mz)%positive.
  destruct sx, sy, sz; try discriminate; try reflexivity;
    destruct (Z.compare_spec ex ey), (Z.compare_spec ey ez),
      (Z.compare_spec ex ez);
    try discriminate; try reflexivity; try lia;
    destruct (Pos.compare_spec mx my), (Pos.compare_spec my mz),
      (Pos.compare_spec mx mz);
    simpl; try discriminate; try reflexivity; lia.
Qed.

Lemma ltb_trans (x y z : float) :
  (x <? y)%float = true -> (y <? z)%float = true -> (x <? z)%float = true.
Proof. rewrite !ltb_spec. apply SFltb_trans. Qed.

(** ** The path assembler: what it keeps *)

Lemma inside_least (x v : float) (lo : option float) (a : float) :
  lo = Some a -> (v <? a)%float = false ->
  exists a', keep_least x lo = Some a' /\ (v <? a')%float = false.
Proof.
  intros -> H. simpl. destruct (x <? a)%float eqn:Hx; eauto.
  exists x. split; trivial.
  destruct (v <? x)%float eqn:Hv; trivial.
  now rewrite (ltb_trans _ _ _ Hv Hx) in H.
Qed.

Lemma inside_greatest (x v : float) (hi : option float) (b : float) :
  hi = Some b -> (b <? v)%float = false ->
  exists b', keep_greatest x hi = Some b' /\ (b' <? v)%float = false.
Proof.
  intros -> H. simpl. destruct (b <? x)%float eqn:Hx; eauto.
  exists x. split; trivial.
  destruct (x <? v)%float eqn:Hv; trivial.
  now rewrite (ltb_trans _ _ _ Hx Hv) in H.
Qed.

Lemma least_holds (x : float) (lo : option float) :
  exists a, keep_least x lo = Some a /\ (x <? a)%float = false.
Proof.
  destruct lo as [a|]; simpl.
  - destruct (x <? a)%float eqn:H; eauto using ltb_irrefl.
  - eauto using ltb_irrefl.
Qed.

Lemma greatest_holds (x : float) (hi : option float) :
  exists b, keep_greatest x hi = Some b /\ (b <? x)%float = false.
Proof.
  destruct hi as [b|]; simpl.
  - destruct (b <? x)%float eqn:H; eauto using ltb_irrefl.
  - eauto using ltb_irrefl.
Qed.

Lemma outside_false (b : bounds) (p : point) :
  outside b p = false <->
  exists x0 x1 y0 y1,
    xmin b = Some x0 /\ xmax b = Some x1 /\ ymin b = Some y0 /\ ymax b = Some y1
    /\ (fst p <? x0)%float = false /\ (x1 <? fst p)%float = false
    /\ (snd p <? y0)%float = false /\ (y1 <? snd p)%float = false.
Proof.
  unfold outside. split.
  - destruct (xmin b) as [x0|], (xmax b) as [x1|], (ymin b) as [y0|],
      (ymax b) as [y1|]; try discriminate.
    intros H. apply orb_false_iff in H. destruct H as [H H4].
    apply orb_false_iff in H. destruct H as [H H3].
    apply orb_false_iff in H. destruct H as [H1 H2].
    exists x0, x1, y0, y1. tauto.
  - intros (x0 & x1 & y0 & y1 & -> & -> & -> & -> & -> & -> & -> & ->).
    reflexivity.
Qed.

(** A wider box holds what the box held. *)
Lemma update_bounds_keeps (b : bounds) (x y : float) (p : point) :
  outside b p = false -> outside (update_bounds b x y) p = false.
Proof.
  intros H. apply outside_false in H.
  destruct H as (x0 & x1 & y0 & y1 & E0 & E1 & E2 & E3 & H0 & H1 & H2 & H3).
  destruct (inside_least x _ _ _ E0 H0) as (x0' & F0 & G0).
  destruct (inside_greatest x _ _ _ E1 H1) as (x1' & F1 & G1).
  destruct (inside_least y _ _ _ E2 H2) as (y0' & F2 & G2).
  destruct (inside_greatest y _ _ _ E3 H3) as (y1' & F3 & G3).
  apply outside_false. exists x0', x1', y0', y1'. simpl. tauto.
Qed.

(** The box holds the point it was widened by. *)
Lemma update_bounds_holds (b : bounds) (x y : float) :
  outside (update_bounds b x y) (x, y) = false.
Proof.
  destruct (least_holds x (xmin b)) as (x0 & F0 & G0).
  destruct (greatest_holds x (xmax b)) as (x1 & F1 & G1).
  destruct (least_holds y (ymin b)) as (y0 & F2 & G2).
  destruct (greatest_holds y (ymax b)) as (y1 & F3 & G3).
  apply outside_false. exists x0, x1, y0, y1. simpl. tauto.
Qed.

(** Widening by [x1] and then by [x2] holds the corner [(x2, y1)]. *)
Lemma update_bounds_corner (b : bounds) (x1 y1 x2 y2 : float) :
  outside (update_bounds (update_bounds b x1 y1) x2 y2) (x2, y1) = false
  /\ outside (update_bounds (update_bounds b x1 y1) x2 y2) (x1, y2) = false.
Proof.
  pose proof (update_bounds_holds b x1 y1) as H1.
  apply (update_bounds_keeps _ x2 y2) in H1.
  pose proof (update_bounds_holds (update_bounds b x1 y1) x2 y2) as H2.
  apply outside_false in H1, H2.
  destruct H1 as (a0 & a1 & c0 & c1 & E0 & E1 & E2 & E3 & A0 & A1 & A2 & A3).
  destruct H2 as (a0' & a1' & c0' & c1' & F0 & F1 & F2 & F3 & B0 & B1 & B2 & B3).
  rewrite E0 in F0. rewrite E1 in F1. rewrite E2 in F2. rewrite E3 in F3.
  injection F0 as <-. injection F1 as <-. injection F2 as <-. injection F3 as <-.
  split; apply outside_false; exists a0, a1, c0, c1; simpl in *; tauto.
Qed.

Lemma update_bounds_consistent (b : bounds) (x y : float) :
  consistent b -> consistent (update_bounds b x y).
Proof.
  unfold consistent, update_bounds, keep_least, keep_greatest.
  destruct (xmin b) as [x0|], (xmax b) as [x1|], (ymin b) as [y0|],
    (ymax b) as [y1|]; cbn; try contradiction.
  - intros [Hx Hy].
    destruct (x <? x0)%float eqn:H0, (x1 <? x)%float eqn:H1,
      (y <? y0)%float eqn:H2, (y1 <? y)%float eqn:H3;
      cbn; split; trivial; apply ltb_irrefl.
  - intros _. split; apply ltb_irrefl.
Qed.

Lemma all_inside_keeps (b : bounds) (x y : float) (segs : list segment) :
  all_inside b segs -> all_inside (update_bounds b x y) segs.
Proof.
  unfold all_inside. intros H.
  eapply Forall_impl; [|exact H]. intros seg Hseg.
  eapply Forall_impl; [|exact Hseg]. intros p. apply update_bounds_keeps.
Qed.

Lemma all_inside_closed (b : bounds) (cur : segment) (segs : list segment) :
  all_inside b (cur :: segs) -> all_inside b ([] :: segs ++ [cur]).
Proof.
  unfold all_inside. intros H. inversion H as [|? ? Hcur Hsegs]; subst.
  constructor; [constructor|]. apply Forall_app. split; trivial.
  now constructor.
Qed.

Lemma all_inside_point (b : bounds) (cur : segment) (p : point)
    (segs : list segment) :
  all_inside b (cur :: segs) -> outside b p = false ->
  all_inside b ((cur ++ [p]) :: segs).
Proof.
  unfold all_inside. intros H Hp. inversion H as [|? ? Hcur Hsegs]; subst.
  constructor; trivial. apply Forall_app. split; trivial. now constructor.
Qed.

(** *** [ExtractData.py] *)

Lemma fold_perform (P : state -> Prop) :
  (forall st op, P st -> P (perform st op)) ->
  forall ops st, P st -> P (fold_left perform ops st).
Proof.
  intros Hstep ops. induction ops as [|op ops IH]; intros st H; simpl; trivial.
  now apply IH, Hstep.
Qed.

Lemma close_segment_at_least (n : nat) (st : state) :
  segments_at_least n st -> segments_at_least n (close_segment st).
Proof.
  unfold segments_at_least, close_segment. intros [Hsegs Hcur].
  destruct (current_segment st) as [|p cur] eqn:E; simpl.
  - rewrite E. now split; [|left].
  - split; [|now left]. apply Forall_app. split; trivial.
    constructor; trivial. destruct Hcur as [Hcur|Hcur]; [discriminate|exact Hcur].
Qed.

Lemma perform_at_least_two (st : state) (op : operator) :
  segments_at_least 2 st -> segments_at_least 2 (perform st op).
Proof.
  intros H. destruct op; simpl; trivial.
  - apply (close_segment_at_least 2) in H. exact H.
  - destruct H as [Hsegs Hcur]. unfold seed, segments_at_least.
    destruct (current_segment st) as [|p cur] eqn:E; simpl; rewrite ?E;
      split; trivial; right; simpl; try lia.
    rewrite length_app. simpl. lia.
  - destruct H as [Hsegs Hcur]. unfold seed_bounded, segments_at_least.
    destruct (current_segment st) as [|p cur] eqn:E; simpl; rewrite ?E;
      split; trivial; right; simpl; try lia.
    rewrite length_app. simpl. lia.
  - destruct H as [Hsegs Hcur]. unfold segments_at_least.
    destruct (current_segment st) as [|p cur] eqn:E; simpl;
      (split; [|now left]); repeat (apply Forall_app; split); trivial;
      repeat (apply Forall_cons || apply Forall_nil); simpl; try lia.
    destruct Hcur as [Hcur|Hcur]; [discriminate | simpl in *; lia].
  - apply (close_segment_at_least 2) in H. exact H.
Qed.

(** X3. Every segment [ExtractData.py] assembles has two points or more. *)
Theorem vec_segments_have_two_points
    (to_float : string -> option float) (tokens : list string) :
  Forall (fun seg => 2 <= List.length seg)
    (all_segments (ExtractData.assemble to_float tokens)).
Proof.
  unfold ExtractData.assemble. rewrite loop_operators.
  apply (close_segment_at_least 2), (fold_perform _ perform_at_least_two).
  split; [constructor | now left].
Qed.

Lemma perform_consistent (st : state) (op : operator) :
  consistent (ps_bounds st) -> consistent (ps_bounds (perform st op)).
Proof.
  intros H. destruct op; simpl; trivial.
  - apply update_bounds_consistent. unfold close_segment.
    now destruct (current_segment st).
  - apply update_bounds_consistent. unfold seed.
    now destruct (current_segment st).
  - apply update_bounds_consistent. unfold seed_bounded.
    destruct (current_segment st); simpl; trivial.
    now apply update_bounds_consistent.
  - repeat apply update_bounds_consistent.
    now destruct (current_segment st).
  - unfold close_segment. now destruct (current_segment st).
Qed.

Lemma update_bounds_present (b : bounds) (x y : float) :
  exists x0, xmin (update_bounds b x y) = Some x0.
Proof.
  simpl. destruct (xmin b) as [a|]; simpl; eauto.
  destruct (x <? a)%float; eauto.
Qed.

Lemma perform_boxed (st : state) (op : operator) :
  boxed st -> boxed (perform st op).
Proof.
  intros H. destruct op; simpl;
    try (right; apply update_bounds_present); trivial.
  destruct H as [[Hs Hc]|H].
  - left. unfold close_segment. rewrite Hc. now split.
  - right. unfold close_segment. now destruct (current_segment st).
Qed.

Lemma close_segment_inside (st : state) :
  points_inside st -> points_inside (close_segment st).
Proof.
  unfold points_inside, close_segment. intros H.
  destruct (current_segment st) as [|p cur] eqn:E; simpl; rewrite ?E; trivial.
  now apply all_inside_closed.
Qed.

Lemma close_segment_cursor (st : state) :
  cursor_inside st -> cursor_inside (close_segment st).
Proof.
  unfold cursor_inside, close_segment. now destruct (current_segment st).
Qed.

(** A move, a relative operator, a rectangle, a close and an ignored token
    keep the points in the box whatever the cursor is; a line does when the
    cursor is in the box. *)
Lemma perform_inside (st : state) (op : operator) :
  points_inside st ->
  (cursor_inside st \/ match op with Line _ _ => False | _ => True end) ->
  points_inside (perform st op).
Proof.
  intros H Hc. destruct op; simpl; trivial.
  - apply close_segment_inside in H. unfold points_inside in *. simpl.
    now apply all_inside_keeps.
  - destruct Hc as [Hc|[]]. unfold points_inside, cursor_inside, seed in *.
    destruct (current_segment st) as [|p cur] eqn:E; simpl; rewrite ?E.
    + apply (all_inside_point _ [(current_x st, current_y st)]).
      * apply all_inside_keeps. unfold all_inside in *.
        inversion H; subst. constructor; trivial. now constructor.
      * apply update_bounds_holds.
    + apply all_inside_point; [now apply all_inside_keeps|].
      apply update_bounds_holds.
  - unfold points_inside, seed_bounded in *.
    destruct (current_segment st) as [|p cur] eqn:E; simpl; rewrite ?E.
    + apply (all_inside_point _ [(current_x st, current_y st)]).
      * apply all_inside_keeps. unfold all_inside in *.
        inversion H; subst. constructor.
        -- constructor; trivial. apply update_bounds_holds.
        -- now apply all_inside_keeps.
      * apply update_bounds_holds.
    + apply all_inside_point; [now apply all_inside_keeps|].
      apply update_bounds_holds.
  - assert (Hrect : Forall (fun p => outside
                       (update_bounds (update_bounds (ps_bounds st) x y)
                          (x + w) (y + h)) p = false)
                      [(x, y); ((x + w)%float, y);
                       ((x + w)%float, (y + h)%float);
                       (x, (y + h)%float); (x, y)]).
    { destruct (update_bounds_corner (ps_bounds st) x y (x + w) (y + h))
        as [H1 H2].
      pose proof (update_bounds_keeps _ (x + w)%float (y + h)%float _
                    (update_bounds_holds (ps_bounds st) x y)) as H0.
      pose proof (update_bounds_holds (update_bounds (ps_bounds st) x y)
                    (x + w) (y + h)) as H3.
      repeat constructor; trivial. }
    unfold points_inside, all_inside in *.
    inversion H as [|? ? Hcur Hsegs]; subst.
    assert (Hold : Forall (Forall (fun p => outside
                     (update_bounds (update_bounds (ps_bounds st) x y)
                        (x + w) (y + h)) p = false))
                     (current_segment st :: all_segments st)).
    { apply (all_inside_keeps _ (x + w)%float (y + h)%float),
        (all_inside_keeps _ x y). exact H. }
    inversion Hold as [|? ? Hcur' Hsegs']; subst.
    destruct (current_segment st) as [|p cur] eqn:E; simpl;
      (constructor; [constructor|]);
      repeat (apply Forall_app; split); trivial;
      repeat (apply Forall_cons; trivial); apply Forall_nil.
  - now apply close_segment_inside.
Qed.

Lemma perform_cursor (st : state) (op : operator) :
  cursor_inside st \/ match op with
                      | Move _ _ | Line _ _ | Relative _ _ => True
                      | _ => False
                      end ->
  cursor_inside (perform st op).
Proof.
  intros H.
  destruct op; unfold cursor_inside; simpl;
    try apply update_bounds_holds.
  - destruct H as [H|[]]. repeat apply update_bounds_keeps.
    now destruct (current_segment st).
  - destruct H as [H|[]]. now apply close_segment_cursor.
  - now destruct H as [H|[]].
Qed.

Lemma fold_inside (ops : list operator) :
  forall st : state,
    points_inside st ->
    cursor_inside st
    \/ (current_segment st = [] /\ line_sets_cursor_first ops = false) ->
    points_inside (fold_left perform ops st).
Proof.
  induction ops as [|op ops IH]; intros st H Hc; simpl; trivial.
  apply IH.
  - apply perform_inside; trivial.
    destruct Hc as [Hc|[_ Hc]]; [now left|].
    right. now destruct op.
  - destruct Hc as [Hc|[Hcur Hc]].
    + left. apply perform_cursor. now left.
    + destruct op; simpl in Hc; try discriminate Hc;
        try (left; apply perform_cursor; now right);
        right; split; trivial; simpl;
        unfold close_segment; now rewrite ?Hcur.
Qed.

(** X4. Unless the first operator that sets the cursor is a line, every
    point [ExtractData.py] puts into a segment lies in the bounding box it
    reports. *)
Theorem vec_points_in_bounds
    (to_float : string -> option float) (tokens : list string) :
  line_sets_cursor_first (operators to_float tokens) = false ->
  all_inside (ps_bounds (ExtractData.assemble to_float tokens))
    (all_segments (ExtractData.assemble to_float tokens)).
Proof.
  intros H. unfold ExtractData.assemble. rewrite loop_operators.
  assert (Hin : points_inside
                  (close_segment
                     (fold_left perform (operators to_float tokens) initial))).
  { apply close_segment_inside, fold_inside.
    - repeat constructor.
    - right. now split. }
  unfold points_inside, all_inside in Hin. now inversion Hin.
Qed.

(** *** The plain PostScript assembler *)

(** What the six state changes of [ExtractDataPS.py] keep, a line keeps. *)
Lemma exec_invariant (to_float : string -> option float) (P : state -> Prop) :
  (forall st, P st -> P (close_segment st)) ->
  (forall st x, P st -> P (set_current_x st x)) ->
  (forall st y, P st -> P (set_current_y st y)) ->
  (forall st, P st -> P (seed_bounded st)) ->
  (forall st, P st ->
     P (set_bounds st
          (update_bounds (ps_bounds st) (current_x st) (current_y st)))) ->
  (forall st, P st ->
     P (set_bounds (append_point st (current_x st, current_y st))
          (update_bounds (ps_bounds st) (current_x st) (current_y st)))) ->
  forall st tokens, P st -> P (ExtractDataPS.exec to_float st tokens).
Proof.
  intros Hclose Hx Hy Hseed Hbounds Hpoint st tokens H.
  unfold ExtractDataPS.exec.
  destruct tokens as [|t tokens]; trivial.
  set (toks := t :: tokens).
  destruct (mem _ ExtractDataPS.move_tokens).
  { destruct (3 <=? _); trivial.
    destruct (to_float _); [|now apply Hclose].
    destruct (to_float _); [|now apply Hx, Hclose].
    apply Hbounds, Hy, Hx, Hclose, H. }
  destruct (mem _ ExtractDataPS.relative_tokens).
  { destruct (3 <=? _); trivial.
    destruct (to_float _); trivial.
    destruct (to_float _); trivial.
    apply (Hpoint (set_current_y (set_current_x (seed_bounded st) _) _)).
    apply Hy, Hx, Hseed, H. }
  destruct (mem _ ExtractDataPS.line_tokens).
  { destruct (3 <=? _); trivial.
    destruct (to_float _); [|now apply Hseed].
    destruct (to_float _); [|now apply Hx, Hseed].
    apply (Hpoint (set_current_y (set_current_x (seed_bounded st) _) _)).
    apply Hy, Hx, Hseed, H. }
  destruct (mem _ ExtractDataPS.stroke_tokens); trivial.
  now apply Hclose.
Qed.

Lemma lines_invariant (to_float : string -> option float)
    (P : state -> Prop) :
  (forall st, P st -> P (close_segment st)) ->
  (forall st x, P st -> P (set_current_x st x)) ->
  (forall st y, P st -> P (set_current_y st y)) ->
  (forall st, P st -> P (seed_bounded st)) ->
  (forall st, P st ->
     P (set_bounds st
          (update_bounds (ps_bounds st) (current_x st) (current_y st)))) ->
  (forall st, P st ->
     P (set_bounds (append_point st (current_x st, current_y st))
          (update_bounds (ps_bounds st) (current_x st) (current_y st)))) ->
  forall content st,
    P st -> P (fold_left (ExtractDataPS.step to_float) content st).
Proof.
  intros Hclose Hx Hy Hseed Hbounds Hpoint content.
  induction content as [|line content IH]; intros st H; simpl; trivial.
  apply IH. unfold ExtractDataPS.step. now apply exec_invariant.
Qed.

Lemma assemble_invariant (to_float : string -> option float)
    (P : state -> Prop) :
  (forall st, P st -> P (close_segment st)) ->
  (forall st x, P st -> P (set_current_x st x)) ->
  (forall st y, P st -> P (set_current_y st y)) ->
  (forall st, P st -> P (seed_bounded st)) ->
  (forall st, P st ->
     P (set_bounds st
          (update_bounds (ps_bounds st) (current_x st) (current_y st)))) ->
  (forall st, P st ->
     P (set_bounds (append_point st (current_x st, current_y st))
          (update_bounds (ps_bounds st) (current_x st) (current_y st)))) ->
  P initial ->
  forall content, P (ExtractDataPS.assemble to_float content).
Proof.
  intros Hclose Hx Hy Hseed Hbounds Hpoint Hinit content.
  unfold ExtractDataPS.assemble. now apply Hclose, lines_invariant.
Qed.

Lemma seed_bounded_inside (st : state) :
  points_inside st -> points_inside (seed_bounded st).
Proof.
  unfold points_inside, seed_bounded. intros H.
  destruct (current_segment st) as [|p cur] eqn:E; simpl; rewrite ?E; trivial.
  unfold all_inside in *. inversion H; subst. constructor.
  - constructor; trivial. apply update_bounds_holds.
  - now apply all_inside_keeps.
Qed.

Lemma draw_inside (st : state) :
  points_inside st ->
  points_inside
    (set_bounds (append_point st (current_x st, current_y st))
       (update_bounds (ps_bounds st) (current_x st) (current_y st))).
Proof.
  unfold points_inside. intros H. simpl.
  apply all_inside_point; [now apply all_inside_keeps|].
  apply update_bounds_holds.
Qed.

(** X5. Every point [ExtractDataPS.py] puts into a segment lies in the
    bounding box it reports. *)
Theorem ps_points_in_bounds
    (to_float : string -> option float) (content : list string) :
  all_inside (ps_bounds (ExtractDataPS.assemble to_float content))
    (all_segments (ExtractDataPS.assemble to_float content)).
Proof.
  assert (H : points_inside (ExtractDataPS.assemble to_float content)).
  { apply assemble_invariant; trivial.
    - apply close_segment_inside.
    - apply seed_bounded_inside.
    - intros st H. unfold points_inside in *. simpl.
      now apply all_inside_keeps.
    - apply draw_inside.
    - repeat constructor. }
  unfold points_inside, all_inside in H. now inversion H.
Qed.

Lemma seed_bounded_at_least_one (st : state) :
  segments_at_least 1 st -> segments_at_least 1 (seed_bounded st).
Proof.
  unfold segments_at_least, seed_bounded. intros [Hsegs Hcur].
  destruct (current_segment st) as [|p cur] eqn:E; simpl; rewrite ?E.
  - split; trivial. right. simpl. lia.
  - now split.
Qed.

(** X6. No segment of [ExtractDataPS.py] is empty. *)
Theorem ps_segments_not_empty
    (to_float : string -> option float) (content : list string) :
  Forall (fun seg => 1 <= List.length seg)
    (all_segments (ExtractDataPS.assemble to_float content)).
Proof.
  apply (assemble_invariant to_float (segments_at_least 1)); trivial.
  - apply close_segment_at_least.
  - apply seed_bounded_at_least_one.
  - intros st [Hsegs Hcur]. split; trivial. right. simpl.
    rewrite length_app. simpl. lia.
  - split; [constructor | now left].
Qed.

Lemma seed_bounded_consistent (st : state) :
  consistent (ps_bounds st) -> consistent (ps_bounds (seed_bounded st)).
Proof.
  unfold seed_bounded. intros H.
  destruct (current_segment st); trivial. simpl.
  now apply update_bounds_consistent.
Qed.

Lemma close_segment_bounds (st : state) :
  ps_bounds (close_segment st) = ps_bounds st.
Proof. unfold close_segment. now destruct (current_segment st). Qed.

Lemma steps_consistent (to_float : string -> option float)
    (tokens : list string) (indices : list nat) :
  forall st : state,
    consistent (ps_bounds st) ->
    consistent
      (ps_bounds (fold_left (ExtractData.step to_float tokens) indices st)).
Proof.
  induction indices as [|i indices IH]; intros st H; simpl; trivial.
  apply IH. rewrite step_perform. now apply perform_consistent.
Qed.

Lemma vec_consistent
    (to_float : string -> option float) (tokens : list string) :
  consistent (ps_bounds (ExtractData.assemble to_float tokens)).
Proof.
  unfold ExtractData.assemble, ExtractData.loop.
  rewrite close_segment_bounds. now apply steps_consistent.
Qed.

(** X7. The bounding box of [ExtractData.py] has its four entries or none,
    and neither maximum is below its minimum: before every token and at the
    end. *)
Theorem vec_bounds_consistent
    (to_float : string -> option float) (tokens : list string) (i : nat) :
  consistent (ps_bounds (state_before to_float tokens i))
  /\ consistent (ps_bounds (ExtractData.assemble to_float tokens)).
Proof.
  split; [|apply vec_consistent].
  unfold state_before. now apply steps_consistent.
Qed.

Lemma lines_consistent
    (to_float : string -> option float) (content : list string) :
  consistent
    (ps_bounds (fold_left (ExtractDataPS.step to_float) content initial)).
Proof.
  apply (lines_invariant to_float (fun st => consistent (ps_bounds st)));
    trivial.
  - intros st. now rewrite close_segment_bounds.
  - apply seed_bounded_consistent.
  - intros st H. now apply update_bounds_consistent.
  - intros st H. now apply update_bounds_consistent.
  - exact I.
Qed.

Lemma ps_consistent
    (to_float : string -> option float) (content : list string) :
  consistent (ps_bounds (ExtractDataPS.assemble to_float content)).
Proof.
  unfold ExtractDataPS.assemble. rewrite close_segment_bounds.
  apply lines_consistent.
Qed.

(** X8. The bounding box of [ExtractDataPS.py] has its four entries or none,
    and neither maximum is below its minimum: after every line and at the
    end. *)
Theorem ps_bounds_consistent
    (to_float : string -> option float) (before after : list string) :
  consistent
    (ps_bounds (fold_left (ExtractDataPS.step to_float) before initial))
  /\ consistent
       (ps_bounds (ExtractDataPS.assemble to_float (before ++ after))).
Proof.
  split; [apply lines_consistent | apply ps_consistent].
Qed.

(** *** The page bounds and the [TypeError] *)

Lemma perform_coordinates (st : state) (op : operator) :
  has_coordinates op = true ->
  exists x0, xmin (ps_bounds (perform st op)) = Some x0.
Proof.
  destruct op; intros H; try discriminate H;
    cbn [perform ps_bounds set_bounds]; apply update_bounds_present.
Qed.

Lemma perform_no_coordinates (st : state) (op : operator) :
  has_coordinates op = false -> ps_bounds (perform st op) = ps_bounds st.
Proof.
  destruct op; simpl; intros H; try discriminate H; trivial.
  apply close_segment_bounds.
Qed.

Lemma fold_no_box (ops : list operator) :
  forall st : state,
    xmin (ps_bounds (fold_left perform ops st)) = None <->
    xmin (ps_bounds st) = None
    /\ forallb (fun op => negb (has_coordinates op)) ops = true.
Proof.
  induction ops as [|op ops IH]; intros st; simpl.
  - tauto.
  - rewrite IH. destruct (has_coordinates op) eqn:Hop; simpl.
    + destruct (perform_coordinates st op Hop) as [x0 Hx0].
      rewrite Hx0. split; [intros [H _]; discriminate H|].
      intros [_ H]. discriminate H.
    + now rewrite (perform_no_coordinates st op Hop).
Qed.

Lemma type_error_no_box
    (log10 : float -> float) (pow10 : float -> option float)
    (st : state) (user_limits : option limits) :
  consistent (ps_bounds st) ->
  filter_and_write log10 pow10 st user_limits = raise TypeError <->
  xmin (ps_bounds st) = None.
Proof.
  unfold consistent, filter_and_write. intros H.
  destruct (xmin (ps_bounds st)), (xmax (ps_bounds st)),
    (ymin (ps_bounds st)), (ymax (ps_bounds st)); try contradiction.
  - split; intros H'; discriminate H'.
  - now split.
Qed.

(** X9. The run of [ExtractData.py] ends in the [TypeError] of the page
    bounds exactly when no move, line, relative or rectangle operator took
    effect. *)
Theorem vec_type_error_iff_no_coordinates
    (to_float : string -> option float)
    (log10 : float -> float) (pow10 : float -> option float)
    (tokens : list string) (user_limits : option limits) :
  filter_and_write log10 pow10 (ExtractData.assemble to_float tokens)
    user_limits = raise TypeError
  <-> forallb (fun op => negb (has_coordinates op))
        (operators to_float tokens) = true.
Proof.
  rewrite type_error_no_box by apply vec_consistent.
  unfold ExtractData.assemble.
  rewrite loop_operators, close_segment_bounds, fold_no_box. simpl. tauto.
Qed.

Lemma boxed_run
    (log10 : float -> float) (pow10 : float -> option float)
    (st : state) (user_limits : option limits) :
  consistent (ps_bounds st) -> boxed st ->
  (all_segments st = []
   /\ filter_and_write log10 pow10 st user_limits = raise TypeError)
  \/ exists x0 x1 y0 y1 rest,
       ps_bounds st = Bounds (Some x0) (Some x1) (Some y0) (Some y1)
       /\ fst (filter_and_write log10 pow10 st user_limits)
          = DetectedPageBounds x0 x1 y0 y1
            :: FilteredOut (filtered_out (all_segments st)) :: rest.
Proof.
  intros Hcons Hbox.
  destruct (xmin (ps_bounds st)) as [x0|] eqn:E0.
  - right. unfold consistent, filter_and_write in *.
    destruct (ps_bounds st) as [a b c d]. simpl in *. subst a.
    destruct b as [x1|], c as [y0|], d as [y1|]; try contradiction.
    exists x0, x1, y0, y1. unfold bind at 1 2. cbn [print fst snd app].
    eexists. split; reflexivity.
  - left. destruct Hbox as [[Hsegs _]|[x0 Hx0]]; [|congruence].
    split; trivial. now apply type_error_no_box.
Qed.

Lemma close_segment_boxed (st : state) : boxed st -> boxed (close_segment st).
Proof. apply (perform_boxed st Close). Qed.

(** X10. In [ExtractData.py] the [TypeError] of the page bounds is met only
    when no segment was assembled; otherwise the page bounds are printed,
    then the number of segments filtered out. *)
Theorem vec_type_error_without_segments
    (to_float : string -> option float)
    (log10 : float -> float) (pow10 : float -> option float)
    (tokens : list string) (user_limits : option limits) :
  (all_segments (ExtractData.assemble to_float tokens) = []
   /\ filter_and_write log10 pow10 (ExtractData.assemble to_float tokens)
        user_limits = raise TypeError)
  \/ exists x0 x1 y0 y1 rest,
       ps_bounds (ExtractData.assemble to_float tokens)
       = Bounds (Some x0) (Some x1) (Some y0) (Some y1)
       /\ fst (filter_and_write log10 pow10
                 (ExtractData.assemble to_float tokens) user_limits)
          = DetectedPageBounds x0 x1 y0 y1
            :: FilteredOut
                 (filtered_out
                    (all_segments (ExtractData.assemble to_float tokens)))
            :: rest.
Proof.
  apply boxed_run; [apply vec_consistent|].
  unfold ExtractData.assemble. rewrite loop_operators.
  apply close_segment_boxed, (fold_perform boxed perform_boxed).
  left. now split.
Qed.

Lemma seed_bounded_boxed (st : state) : boxed st -> boxed (seed_bounded st).
Proof.
  unfold seed_bounded. intros H.
  destruct (current_segment st) eqn:E; trivial.
  right. apply update_bounds_present.
Qed.

(** X11. In [ExtractDataPS.py] the [TypeError] of the page bounds is met
    only when no segment was assembled; otherwise the page bounds are
    printed, then the number of segments filtered out. *)
Theorem ps_type_error_without_segments
    (to_float : string -> option float)
    (log10 : float -> float) (pow10 : float -> option float)
    (content : list string) (user_limits : option limits) :
  (all_segments (ExtractDataPS.assemble to_float content) = []
   /\ filter_and_write log10 pow10 (ExtractDataPS.assemble to_float content)
        user_limits = raise TypeError)
  \/ exists x0 x1 y0 y1 rest,
       ps_bounds (ExtractDataPS.assemble to_float content)
       = Bounds (Some x0) (Some x1) (Some y0) (Some y1)
       /\ fst (filter_and_write log10 pow10
                 (ExtractDataPS.assemble to_float content) user_limits)
          = DetectedPageBounds x0 x1 y0 y1
            :: FilteredOut
                 (filtered_out
                    (all_segments (ExtractDataPS.assemble to_float content)))
            :: rest.
Proof.
  apply boxed_run; [apply ps_consistent|].
  apply (assemble_invariant to_float boxed); trivial.
  - apply close_segment_boxed.
  - apply seed_bounded_boxed.
  - intros st _. right. apply update_bounds_present.
  - intros st _. right. apply update_bounds_present.
  - left. now split.
Qed.

(** *** Segments are only appended *)

Lemma close_segment_extends (st : state) :
  exists more, all_segments (close_segment st) = all_segments st ++ more.
Proof.
  unfold close_segment. destruct (current_segment st) as [|p cur].
  - exists []. now rewrite app_nil_r.
  - now exists [p :: cur].
Qed.

Lemma seed_bounded_segments (st : state) :
  all_segments (seed_bounded st) = all_segments st.
Proof. unfold seed_bounded. now destruct (current_segment st). Qed.

Lemma seed_segments (st : state) : all_segments (seed st) = all_segments st.
Proof. unfold seed. now destruct (current_segment st). Qed.

Lemma perform_extends (st : state) (op : operator) :
  exists more, all_segments (perform st op) = all_segments st ++ more.
Proof.
  destruct op; cbn [perform all_segments set_bounds set_cursor append_point
                    clear_current].
  - apply close_segment_extends.
  - exists []. now rewrite seed_segments, app_nil_r.
  - exists []. now rewrite seed_bounded_segments, app_nil_r.
  - destruct (current_segment st) as [|p cur]; simpl; eauto.
    rewrite <- app_assoc. eauto.
  - apply close_segment_extends.
  - exists []. now rewrite app_nil_r.
Qed.

Lemma steps_extend (to_float : string -> option float) (tokens : list string)
    (indices : list nat) :
  forall st : state,
    exists more,
      all_segments (fold_left (ExtractData.step to_float tokens) indices st)
      = all_segments st ++ more.
Proof.
  induction indices as [|i indices IH]; intros st; simpl.
  - exists []. now rewrite app_nil_r.
  - destruct (IH (ExtractData.step to_float tokens st i)) as [more ->].
    rewrite step_perform. destruct (perform_extends st (operator_at to_float tokens i))
      as [more' ->].
    rewrite <- app_assoc. eauto.
Qed.

Lemma step_beyond (to_float : string -> option float) (tokens : list string)
    (st : state) (i : nat) :
  List.length tokens <= i -> ExtractData.step to_float tokens st i = st.
Proof.
  intros Hi. unfold ExtractData.step.
  rewrite (nth_overflow tokens EmptyString Hi). reflexivity.
Qed.

Lemma steps_beyond (to_float : string -> option float) (tokens : list string)
    (st : state) (k : nat) :
  forall i, List.length tokens <= i ->
    fold_left (ExtractData.step to_float tokens) (seq i k) st = st.
Proof.
  induction k as [|k IH]; intros i Hi; simpl; trivial.
  rewrite step_beyond by trivial. apply IH. lia.
Qed.

(** X12. [ExtractData.py] only appends to [all_segments]: the segments it
    holds before the token at index [i] are, unchanged and in their order,
    the first segments it holds at every later index and at the end. *)
Theorem vec_segments_only_appended
    (to_float : string -> option float) (tokens : list string) (i k : nat) :
  (exists more,
     all_segments (state_before to_float tokens (i + k))
     = all_segments (state_before to_float tokens i) ++ more)
  /\ (exists more,
        all_segments (ExtractData.assemble to_float tokens)
        = all_segments (state_before to_float tokens i) ++ more).
Proof.
  split.
  - unfold state_before. rewrite seq_app, fold_left_app. apply steps_extend.
  - unfold ExtractData.assemble, ExtractData.loop, state_before.
    destruct (Nat.le_ge_cases i (List.length tokens)) as [Hi|Hi].
    + replace (List.length tokens) with (i + (List.length tokens - i)) by lia.
      rewrite seq_app, fold_left_app.
      destruct (close_segment_extends
                  (fold_left (ExtractData.step to_float tokens)
                     (seq (0 + i) (List.length tokens - i))
                     (fold_left (ExtractData.step to_float tokens) (seq 0 i)
                        initial))) as [more ->].
      destruct (steps_extend to_float tokens
                  (seq (0 + i) (List.length tokens - i))
                  (fold_left (ExtractData.step to_float tokens) (seq 0 i)
                     initial)) as [more' ->].
      rewrite <- app_assoc. eauto.
    + assert (E : seq 0 i
                  = seq 0 (List.length tokens)
                    ++ seq (List.length tokens) (i - List.length tokens)).
      { replace i with (List.length tokens + (i - List.length tokens)) at 1
          by lia.
        apply seq_app. }
      rewrite E, fold_left_app.
      rewrite (steps_beyond to_float tokens _ (i - List.length tokens)
                 (List.length tokens)) by lia.
      apply close_segment_extends.
Qed.

Lemma exec_extends (to_float : string -> option float) (tokens : list string)
    (base : list segment) (st : state) :
  (exists more, all_segments st = base ++ more) ->
  exists more,
    all_segments (ExtractDataPS.exec to_float st tokens) = base ++ more.
Proof.
  apply (exec_invariant to_float
           (fun st => exists more, all_segments st = base ++ more)); trivial.
  - intros st' [more H]. destruct (close_segment_extends st') as [more' ->].
    rewrite H, <- app_assoc. eauto.
  - intros st'. now rewrite seed_bounded_segments.
Qed.

Lemma lines_extend (to_float : string -> option float) (content : list string)
    (base : list segment) :
  forall st : state,
    (exists more, all_segments st = base ++ more) ->
    exists more,
      all_segments (fold_left (ExtractDataPS.step to_float) content st)
      = base ++ more.
Proof.
  induction content as [|line content IH]; intros st H; simpl; trivial.
  apply IH, exec_extends, H.
Qed.

(** X13. [ExtractDataPS.py] only appends to [all_segments]: the segments it
    holds after the lines [before] are the first segments it holds after any
    further lines, and at the end. *)
Theorem ps_segments_only_appended
    (to_float : string -> option float) (before after : list string) :
  (exists more,
     all_segments
       (fold_left (ExtractDataPS.step to_float) (before ++ after) initial)
     = all_segments (fold_left (ExtractDataPS.step to_float) before initial)
       ++ more)
  /\ (exists more,
        all_segments (ExtractDataPS.assemble to_float (before ++ after))
        = all_segments
            (fold_left (ExtractDataPS.step to_float) before initial)
          ++ more).
Proof.
  assert (H : exists more,
            all_segments
              (fold_left (ExtractDataPS.step to_float) (before ++ after)
                 initial)
            = all_segments
                (fold_left (ExtractDataPS.step to_float) before initial)
              ++ more).
  { rewrite fold_left_app. apply lines_extend.
    exists []. now rewrite app_nil_r. }
  split; trivial.
  unfold ExtractDataPS.assemble.
  destruct (close_segment_extends
              (fold_left (ExtractDataPS.step to_float) (before ++ after)
                 initial)) as [more ->].
  destruct H as [more' ->]. rewrite <- app_assoc. eauto.
Qed.

(** *** One path *)

Lemma fold_effective (ops : list operator) :
  forall st : state,
    fold_left perform ops st = fold_left perform (effective ops) st.
Proof.
  induction ops as [|op ops IH]; intros st; trivial.
  destruct op; simpl; apply IH.
Qed.

Lemma close_segment_again (st : state) :
  close_segment (close_segment st) = close_segment st.
Proof.
  unfold close_segment. destruct (current_segment st) eqn:E; simpl;
    now rewrite ?E.
Qed.

Lemma fold_closes (ops : list operator) :
  forallb closes ops = true ->
  forall st : state,
    close_segment (fold_left perform ops st) = close_segment st.
Proof.
  induction ops as [|op ops IH]; intros H st; trivial.
  simpl in H. apply andb_true_iff in H. destruct H as [Hop H].
  destruct op; try discriminate Hop. simpl.
  rewrite (IH H). apply close_segment_again.
Qed.

(** A line or relative operator puts its destination into the segment,
    after the cursor when the segment was empty, and takes the cursor
    there. *)
Lemma perform_draws (st : state) (op : operator) :
  draws op = true ->
  all_segments (perform st op) = all_segments st
  /\ current_segment (perform st op)
     = match current_segment st with
       | [] => [(current_x st, current_y st)]
       | seg => seg
       end ++ [destination (current_x st, current_y st) op]
  /\ (current_x (perform st op), current_y (perform st op))
     = destination (current_x st, current_y st) op.
Proof.
  destruct op; intros H; try discriminate H; simpl;
    unfold seed, seed_bounded;
    destruct (current_segment st) eqn:E; simpl; now rewrite ?E.
Qed.

Lemma fold_draws (ops : list operator) :
  forallb draws ops = true ->
  forall st : state,
    current_segment st <> [] ->
    all_segments (fold_left perform ops st) = all_segments st
    /\ current_segment (fold_left perform ops st)
       = current_segment st ++ path (current_x st, current_y st) ops.
Proof.
  induction ops as [|op ops IH]; intros H st Hcur.
  - simpl. now rewrite app_nil_r.
  - simpl in H. apply andb_true_iff in H. destruct H as [Hop H].
    destruct (perform_draws st op Hop) as (Hsegs & Hseg & Hdest).
    cbn [fold_left path].
    destruct (IH H (perform st op)) as [Hsegs' Hseg'].
    + rewrite Hseg. now destruct (current_segment st).
    + rewrite Hsegs', Hseg', Hsegs, Hseg, Hdest. split; trivial.
      destruct (current_segment st); [contradiction|].
      now rewrite <- app_assoc.
Qed.

(** X14. A move, then line and relative operators, then close or stroke
    operators or none: [ExtractData.py] gives one segment, which starts at
    the point of the move and goes through the destination of every
    operator, a relative one counted from the point before it. Operators
    that do not take effect may stand anywhere between them. *)
Theorem vec_one_path
    (to_float : string -> option float) (tokens : list string)
    (x y : float) (op : operator) (ops ends : list operator) :
  effective (operators to_float tokens) = Move x y :: op :: ops ++ ends ->
  forallb draws (op :: ops) = true ->
  forallb closes ends = true ->
  all_segments (ExtractData.assemble to_float tokens)
  = [(x, y) :: path (x, y) (op :: ops)].
Proof.
  intros Hops Hdraws Hends. unfold ExtractData.assemble.
  rewrite loop_operators, fold_effective, Hops.
  change (Move x y :: op :: ops ++ ends)
    with ([Move x y; op] ++ ops ++ ends).
  rewrite !fold_left_app, (fold_closes ends Hends).
  simpl in Hdraws. apply andb_true_iff in Hdraws.
  destruct Hdraws as [Hop Hdraws].
  cbn [fold_left].
  destruct (perform_draws (perform initial (Move x y)) op Hop)
    as (Hsegs & Hseg & Hdest).
  destruct (fold_draws ops Hdraws (perform (perform initial (Move x y)) op))
    as [Hsegs' Hseg'].
  { rewrite Hseg. discriminate. }
  unfold close_segment. rewrite Hseg', Hseg, Hdest.
  change (current_segment (perform initial (Move x y))) with (@nil point).
  change (current_x (perform initial (Move x y))) with x.
  change (current_y (perform initial (Move x y))) with y.
  cbn [app all_segments append_segment clear_current].
  rewrite Hsegs', Hsegs. reflexivity.
Qed.

Lemma vec_one_path_witness :
  effective
    (operators float_of_string ["1"; "2"; "m"; "x"; "3"; "4"; "l"; "1"; "1";
                                "R"; "S"])
  = Move 1 2 :: Line 3 4 :: [Relative 1 1] ++ [Close]
  /\ forallb draws [Line 3 4; Relative 1 1] = true
  /\ forallb closes [Close] = true
  /\ all_segments
       (ExtractData.assemble float_of_string
          ["1"; "2"; "m"; "x"; "3"; "4"; "l"; "1"; "1"; "R"; "S"])
     = [[(1, 2); (3, 4); (4, 5)]%float].
Proof.
  split; [vm_compute; reflexivity|].
  split; [reflexivity|]. split; [reflexivity|].
  apply (vec_one_path float_of_string
           ["1"; "2"; "m"; "x"; "3"; "4"; "l"; "1"; "1"; "R"; "S"]
           1 2 (Line 3 4) [Relative 1 1] [Close]).
  - vm_compute. reflexivity.
  - reflexivity.
  - reflexivity.
Defined.

(** ** What [convert_value] can do *)

(** Once the page bounds differ, the division of [convert_value] has a
    divisor that is not zero. *)
Lemma normalize_returns (val ps_min ps_max : float) :
  (ps_max =? ps_min)%float = false ->
  truediv (val - ps_min) (ps_max - ps_min)
  = Returned ((val - ps_min) / (ps_max - ps_min))%float.
Proof.
  intros H. unfold truediv. now rewrite (differ_sub_nonzero _ _ H).
Qed.

(** X15. [convert_value] never divides by zero, whatever the bounds are: it
    returns a value, or in logarithmic mode it exits with status 1 on a user
    bound that is zero or negative, or meets the [OverflowError] of the
    power. In linear mode it always returns. *)
Theorem convert_value_outcomes
    (log10 : float -> float) (pow10 : float -> option float)
    (val ps_min ps_max user_min user_max : float) (is_log : bool) :
  match convert_value log10 pow10 val ps_min ps_max user_min user_max is_log
  with
  | (msgs, Returned _) => msgs = []
  | (msgs, SysExit c) =>
      msgs = [ErrLogLimits] /\ c = 1%Z /\ is_log = true
      /\ ((user_min <=? 0)%float = true \/ (user_max <=? 0)%float = true)
  | (msgs, Raised e) => msgs = [] /\ e = OverflowError /\ is_log = true
  end.
Proof.
  unfold convert_value.
  destruct (ps_max =? ps_min)%float eqn:Hdiff; [reflexivity|].
  rewrite (normalize_returns _ _ _ Hdiff).
  destruct is_log; [|reflexivity].
  unfold math_log10. cbn [bind lift fst snd app].
  destruct (user_min <=? 0)%float; [simpl; tauto|].
  destruct (user_max <=? 0)%float; [simpl; tauto|].
  destruct (pow10 _); simpl; tauto.
Qed.

(** X16. The error about the log scale is met exactly in logarithmic mode,
    on page bounds that differ, with a user bound that is zero or negative. *)
Theorem log_error_iff
    (log10 : float -> float) (pow10 : float -> option float)
    (val ps_min ps_max user_min user_max : float) (is_log : bool) :
  convert_value log10 pow10 val ps_min ps_max user_min user_max is_log
  = ([ErrLogLimits], SysExit 1%Z)
  <-> is_log = true /\ (ps_max =? ps_min)%float = false
      /\ ((user_min <=? 0)%float = true \/ (user_max <=? 0)%float = true).
Proof.
  unfold convert_value.
  destruct (ps_max =? ps_min)%float eqn:Hdiff.
  { split; [discriminate|]. intros (_ & H & _). discriminate H. }
  rewrite (normalize_returns _ _ _ Hdiff).
  destruct is_log.
  2:{ split; [discriminate|]. intros (H & _). discriminate H. }
  unfold math_log10. cbn [bind lift fst snd app].
  destruct (user_min <=? 0)%float; [simpl; tauto|].
  destruct (user_max <=? 0)%float; [simpl; tauto|].
  destruct (pow10 _); simpl;
    (split; [discriminate|]; intros (_ & _ & [H|H]); discriminate H).
Qed.

Lemma linear_returns
    (log10 : float -> float) (pow10 : float -> option float)
    (val ps_min ps_max user_min user_max : float) :
  convert_value log10 pow10 val ps_min ps_max user_min user_max false
  = ret (linear val ps_min ps_max user_min user_max).
Proof.
  unfold convert_value, linear.
  destruct (ps_max =? ps_min)%float eqn:Hdiff; [reflexivity|].
  now rewrite (normalize_returns _ _ _ Hdiff).
Qed.

(** ** The output loop *)

Lemma mapM_ret {A B : Type} (f : A -> run B) (g : A -> B) (l : list A) :
  (forall a, f a = ret (g a)) -> mapM f l = ret (map g l).
Proof.
  intros H. induction l as [|a l IH]; simpl; trivial.
  now rewrite H, IH.
Qed.

Lemma mapM_length {A B : Type} (f : A -> run B) (l : list A) :
  forall msgs out,
    mapM f l = (msgs, Returned out) -> List.length out = List.length l.
Proof.
  induction l as [|a l IH]; intros msgs out H; simpl in H.
  - injection H as _ <-. reflexivity.
  - unfold bind in H. destruct (f a) as [m [b| |]]; simpl in H;
      try discriminate H.
    destruct (mapM f l) as [m' [bs| |]] eqn:E; simpl in H;
      try discriminate H.
    injection H as _ <-. simpl. f_equal. now apply (IH m' bs).
Qed.

Lemma mapM_lengths {A B : Type} (f : A -> run B) (l : list (list A)) :
  forall msgs out,
    mapM (mapM f) l = (msgs, Returned out) ->
    map (@List.length B) out = map (@List.length A) l.
Proof.
  induction l as [|a l IH]; intros msgs out H; simpl in H.
  - injection H as _ <-. reflexivity.
  - unfold bind in H. destruct (mapM f a) as [m [b| |]] eqn:Ea; simpl in H;
      try discriminate H.
    destruct (mapM (mapM f) l) as [m' [bs| |]] eqn:E; simpl in H;
      try discriminate H.
    injection H as _ <-. simpl. f_equal.
    + now apply (mapM_length f a m b).
    + now apply (IH m' bs).
Qed.

Lemma count_points_lengths (a b : list segment) :
  map (@List.length point) a = map (@List.length point) b ->
  count_points a = count_points b.
Proof.
  unfold count_points. revert b.
  induction a as [|x a IH]; intros [|y b] H; try discriminate H; trivial.
  simpl in H. injection H as Hx H. simpl. rewrite !length_app, Hx.
  f_equal. now apply IH.
Qed.

Lemma map_map_id (segs : list segment) :
  map (map (fun p : point => p)) segs = segs.
Proof.
  induction segs as [|seg segs IH]; simpl; trivial.
  now rewrite map_id, IH.
Qed.

(** X17. Without a calibration both scripts write the segments of more than
    ten points as they are, in raw page coordinates, and report their number
    of points. *)
Theorem uncalibrated_run_writes_raw_points
    (log10 : float -> float) (pow10 : float -> option float)
    (st : state) (x0 x1 y0 y1 : float) :
  ps_bounds st = Bounds (Some x0) (Some x1) (Some y0) (Some y1) ->
  filter_and_write log10 pow10 st None
  = ([DetectedPageBounds x0 x1 y0 y1;
      FilteredOut (filtered_out (all_segments st));
      DoneWrote (count_points (data_segments (all_segments st)))],
     Returned (Report (data_segments (all_segments st))
                 (count_points (data_segments (all_segments st))))).
Proof.
  intros H. unfold filter_and_write. rewrite H. cbn [xmin xmax ymin ymax].
  rewrite (mapM_ret _ (map (fun p : point => p))).
  - now rewrite map_map_id.
  - intros seg. apply mapM_ret. now intros [x y].
Qed.

(** X18. With a linear calibration of both axes a run cannot fail once the
    page bounds are known: every point of every segment of more than ten
    points is written, each coordinate mapped by the linear expression. *)
Theorem linear_run_maps_every_point
    (log10 : float -> float) (pow10 : float -> option float)
    (st : state) (l : limits) (x0 x1 y0 y1 : float) :
  ps_bounds st = Bounds (Some x0) (Some x1) (Some y0) (Some y1) ->
  logx l = false -> logy l = false ->
  filter_and_write log10 pow10 st (Some l)
  = ([DetectedPageBounds x0 x1 y0 y1;
      FilteredOut (filtered_out (all_segments st));
      DoneWrote (count_points (data_segments (all_segments st)))],
     Returned
       (Report
          (map (map (fun p : point =>
                       (linear (fst p) x0 x1 (user_xmin l) (user_xmax l),
                        linear (snd p) y0 y1 (user_ymin l) (user_ymax l))))
             (data_segments (all_segments st)))
          (count_points (data_segments (all_segments st))))).
Proof.
  intros H Hx Hy. unfold filter_and_write. rewrite H.
  cbn [xmin xmax ymin ymax].
  rewrite (mapM_ret _
             (map (fun p : point =>
                     (linear (fst p) x0 x1 (user_xmin l) (user_xmax l),
                      linear (snd p) y0 y1 (user_ymin l) (user_ymax l))))).
  - cbn [bind print ret fst snd app]. repeat f_equal.
    + apply count_points_lengths. rewrite map_map. apply map_ext.
      intros seg. apply length_map.
    + apply count_points_lengths. rewrite map_map. apply map_ext.
      intros seg. apply length_map.
  - intros seg. apply mapM_ret. intros [x y]. unfold convert_point.
    now rewrite Hx, Hy, !linear_returns.
Qed.

(** X19. A run that returns has written, for every segment of more than ten
    points and in their order, as many points as the segment has, and
    reports their number; this holds with any calibration. *)
Theorem returned_run_keeps_every_point
    (log10 : float -> float) (pow10 : float -> option float)
    (st : state) (user_limits : option limits)
    (msgs : list message) (r : report) :
  filter_and_write log10 pow10 st user_limits = (msgs, Returned r) ->
  map (@List.length point) (written r)
  = map (@List.length point) (data_segments (all_segments st))
  /\ total_points r = count_points (data_segments (all_segments st))
  /\ exists first, msgs = first ++ [DoneWrote (total_points r)].
Proof.
  unfold filter_and_write.
  destruct (xmin (ps_bounds st)) as [x0|]; [|discriminate].
  destruct (xmax (ps_bounds st)) as [x1|]; [|discriminate].
  destruct (ymin (ps_bounds st)) as [y0|]; [|discriminate].
  destruct (ymax (ps_bounds st)) as [y1|]; [|discriminate].
  unfold bind at 1 2. cbn [print fst snd app].
  destruct (mapM (mapM (convert_point log10 pow10 (x0, x1, y0, y1)
                          user_limits))
              (data_segments (all_segments st)))
    as [m [out| |]] eqn:E; unfold bind; cbn [print ret fst snd app];
    try discriminate.
  intros H. injection H as <- <-. cbn [written total_points].
  pose proof (mapM_lengths _ _ _ _ E) as Hlen.
  split; trivial. split.
  - now apply count_points_lengths.
  - exists ([DetectedPageBounds x0 x1 y0 y1;
             FilteredOut (filtered_out (all_segments st))] ++ m).
    reflexivity.
Qed.

(** ** The tokenizer *)

Lemma no_space_snoc (cur : string) (c : ascii) :
  no_space (snoc cur c) = no_space cur && negb (isspace c).
Proof.
  unfold snoc. induction cur as [|a cur IH]; simpl.
  - now rewrite andb_true_r.
  - rewrite IH. now rewrite andb_assoc.
Qed.

Lemma flush_words (cur : string) :
  no_space cur = true -> forallb word (flush cur) = true.
Proof.
  intros H. destruct cur as [|a cur]; trivial.
  unfold flush, word. cbn [forallb String.eqb negb]. now rewrite H.
Qed.

Lemma split_from_words (s : string) :
  forall cur, no_space cur = true -> forallb word (split_from cur s) = true.
Proof.
  induction s as [|c s IH]; intros cur H; simpl.
  - now apply flush_words.
  - destruct (isspace c) eqn:Hc.
    + rewrite forallb_app, flush_words by trivial. now apply IH.
    + apply IH. now rewrite no_space_snoc, H, Hc.
Qed.

Lemma flush_no_percent (cur : string) :
  no_percent cur = true -> forallb no_percent (flush cur) = true.
Proof.
  intros H. destruct cur as [|a cur]; trivial.
  unfold flush. cbn [forallb]. now rewrite H.
Qed.

Lemma split_from_no_percent (s : string) :
  forall cur,
    no_percent cur = true -> no_percent s = true ->
    forallb no_percent (split_from cur s) = true.
Proof.
  induction s as [|c s IH]; intros cur Hcur H; simpl.
  - now apply flush_no_percent.
  - simpl in H. apply andb_true_iff in H. destruct H as [Hc Hs].
    destruct (isspace c).
    + rewrite forallb_app, flush_no_percent by trivial. now apply IH.
    + apply IH; trivial. now rewrite no_percent_snoc, Hcur, Hc.
Qed.

Lemma before_percent_clear (s : string) : no_percent (before_percent s) = true.
Proof.
  induction s as [|c s IH]; simpl; trivial.
  destruct (code c =? 37) eqn:Hc; trivial. simpl. now rewrite Hc.
Qed.

(** X20. No token of [ExtractData.py] is empty, and none holds white space
    or a percent sign. *)
Theorem vec_tokens_are_words (raw_content : string) :
  forallb (fun t => word t && no_percent t) (ExtractData.tokenize raw_content)
  = true.
Proof.
  unfold ExtractData.tokenize.
  induction (splitlines raw_content) as [|line lines IH]; trivial.
  cbn [flat_map]. rewrite forallb_app, IH, andb_true_r.
  apply forallb_forall. intros t Ht.
  pose proof (split_from_words (before_percent line) EmptyString eq_refl)
    as Hwords.
  pose proof (split_from_no_percent (before_percent line) EmptyString eq_refl
                (before_percent_clear line)) as Hclear.
  rewrite forallb_forall in Hwords, Hclear.
  unfold split in Ht. now rewrite (Hwords t Ht), (Hclear t Ht).
Qed.

(** X21. [ExtractDataPS.py] reads the tokens of the whole text: its lines,
    stripped and split, give in their order what splitting the text at
    blanks gives, and no token is empty or holds white space. *)
Theorem ps_tokens_are_split (text : string) :
  List.concat (token_lines text) = split text
  /\ forallb (forallb word) (token_lines text) = true.
Proof.
  split.
  - unfold token_lines, readlines. apply token_lines_from.
  - unfold token_lines. apply forallb_forall. intros tokens Hin.
    apply in_map_iff in Hin. destruct Hin as (line & <- & _).
    now apply split_from_words.
Qed.

(** X22. Without a percent sign in the text, [ExtractData.py] reads the
    tokens that splitting the text at blanks gives, the same as
    [ExtractDataPS.py]. *)
Theorem vec_tokens_without_comments (text : string) :
  no_percent text = true ->
  ExtractData.tokenize text = split text
  /\ ExtractData.tokenize text = List.concat (token_lines text).
Proof.
  intros H. split.
  - now apply tokenize_split.
  - now apply tokenize_token_lines.
Qed.

Lemma vec_tokens_without_comments_witness :
  no_percent "1 2 m 3 4 l S" = true
  /\ ExtractData.tokenize "1 2 m 3 4 l S" = ["1"; "2"; "m"; "3"; "4"; "l"; "S"].
Proof.
  split; [reflexivity|].
  rewrite (proj1 (vec_tokens_without_comments "1 2 m 3 4 l S" eq_refl)).
  reflexivity.
Defined.

Lemma before_percent_comment (a c : string) :
  before_percent (a ++ String "%" c) = before_percent a.
Proof.
  induction a as [|x a IH]; simpl; trivial.
  destruct (code x =? 37); trivial. now rewrite IH.
Qed.

Lemma splitlines_from_no_break (c b : string) :
  no_linebreak c = true ->
  forall cur, splitlines_from cur (c ++ b) = splitlines_from (cur ++ c) b.
Proof.
  induction c as [|x c IH]; intros H cur; simpl.
  - now rewrite append_empty.
  - simpl in H. apply andb_true_iff in H. destruct H as [Hx Hc].
    apply negb_true_iff in Hx.
    destruct b as [|y b'] eqn:Hb.
    + rewrite <- Hb in *. cbn [splitlines_from]. rewrite Hx.
      now rewrite (IH Hc), snoc_append.
    + rewrite <- Hb in *. cbn [splitlines_from]. rewrite Hx.
      now rewrite (IH Hc), snoc_append.
Qed.

Lemma flush_comment (cur c : string) :
  flat_map (fun line => split (before_percent line))
    (flush (cur ++ String "%" c))
  = flat_map (fun line => split (before_percent line)) (flush cur).
Proof.
  assert (E : flush (cur ++ String "%" c) = [(cur ++ String "%" c)%string])
    by now destruct cur.
  rewrite E. cbn [flat_map]. rewrite before_percent_comment, app_nil_r.
  destruct cur; [reflexivity|]. cbn [flush flat_map]. now rewrite app_nil_r.
Qed.

(** A comment that runs to the end of its line gives no token. *)
Lemma comment_line (c b cur : string) :
  no_linebreak c = true -> ends_line b = true ->
  flat_map (fun line => split (before_percent line))
    (splitlines_from cur (String "%" c ++ b))
  = flat_map (fun line => split (before_percent line)) (splitlines_from cur b).
Proof.
  intros Hc Hb.
  rewrite (splitlines_from_no_break (String "%" c) b Hc cur).
  destruct b as [|y b'].
  - cbn [splitlines_from]. apply flush_comment.
  - simpl in Hb. cbn [splitlines_from]. rewrite Hb. cbn [flat_map].
    now rewrite before_percent_comment.
Qed.

Lemma comment_from (c b : string) (n : nat) :
  no_linebreak c = true -> ends_line b = true ->
  forall a cur,
    String.length a <= n ->
    flat_map (fun line => split (before_percent line))
      (splitlines_from cur (a ++ String "%" c ++ b))
    = flat_map (fun line => split (before_percent line))
        (splitlines_from cur (a ++ b)).
Proof.
  intros Hc Hb. induction n as [|n IH]; intros a cur Hlen.
  - destruct a; [|simpl in Hlen; lia]. now apply comment_line.
  - destruct a as [|x a']; [now apply comment_line|].
    simpl in Hlen.
    change ((String x a' ++ String "%" c ++ b)%string)
      with (String x (a' ++ String "%" c ++ b)%string).
    change ((String x a' ++ b)%string) with (String x (a' ++ b)%string).
    cbn [splitlines_from].
    destruct (is_linebreak x) eqn:Hx; [|apply IH; lia].
    cbn [flat_map]. f_equal.
    destruct a' as [|z a''].
    + change (("" ++ String "%" c ++ b)%string)
        with (String "%" (c ++ b)%string).
      change (("" ++ b)%string) with b.
      cbv beta iota.
      replace ((code x =? 13) && (code "%" =? 10)) with false
        by now rewrite andb_false_r.
      change (String "%" (c ++ b)%string) with (String "%" c ++ b)%string.
      rewrite (comment_line c b EmptyString Hc Hb).
      destruct b as [|y b']; [reflexivity|].
      destruct ((code x =? 13) && (code y =? 10)) eqn:Hcr; trivial.
      apply andb_true_iff in Hcr. destruct Hcr as [_ Hy].
      simpl in Hb. cbn [splitlines_from]. rewrite Hb. cbn [flat_map].
      change (split (before_percent "")) with (@nil string).
      cbn [app]. destruct b' as [|w b'']; [reflexivity|].
      apply Nat.eqb_eq in Hy. rewrite Hy. reflexivity.
    + change ((String z a'' ++ String "%" c ++ b)%string)
        with (String z (a'' ++ String "%" c ++ b)%string).
      change ((String z a'' ++ b)%string) with (String z (a'' ++ b)%string).
      cbv beta iota.
      destruct ((code x =? 13) && (code z =? 10)).
      * apply IH. simpl in Hlen. lia.
      * apply (IH (String z a'')). lia.
Qed.

(** X23. What stands between a percent sign and the end of its line is a
    comment: [ExtractData.py] reads the same tokens as from the text without
    it. *)
Theorem comment_is_dropped (before comment after : string) :
  no_linebreak comment = true -> ends_line after = true ->
  ExtractData.tokenize (before ++ String "%" comment ++ after)
  = ExtractData.tokenize (before ++ after).
Proof.
  intros Hc Hb. unfold ExtractData.tokenize, splitlines.
  now apply (comment_from comment after (String.length before)).
Qed.

(** ** The command line and the input file *)

(** X24. With a bound that is given and not zero and another bound missing,
    both scripts print the error about the bounds and exit with status 1
    before they print anything else or read the input file. *)
Theorem partial_bounds_exit_before_reading
    (to_float : string -> option float)
    (log10 : float -> float) (pow10 : float -> option float)
    (args : arguments) (f : ExtractData.input_file) (ps_file : option string) :
  truthy (arg_xmin args) || truthy (arg_xmax args)
  || truthy (arg_ymin args) || truthy (arg_ymax args) = true ->
  arg_xmin args = None \/ arg_xmax args = None
  \/ arg_ymin args = None \/ arg_ymax args = None ->
  ExtractData.main to_float log10 pow10 args f = ([ErrAllBounds], SysExit 1%Z)
  /\ ExtractDataPS.main to_float log10 pow10 args ps_file
     = ([ErrAllBounds], SysExit 1%Z).
Proof.
  intros Hany Hmissing. unfold ExtractData.main, ExtractDataPS.main.
  now rewrite (partial_nonzero_bounds_refused args Hany Hmissing).
Qed.

Lemma partial_bounds_exit_before_reading_witness :
  truthy (Some 1%float) || truthy None || truthy (Some 0%float)
  || truthy (Some 5%float) = true
  /\ ExtractData.main float_of_string (fun x => x) (fun x => Some x)
       (Arguments (Some 1%float) None (Some 0%float) (Some 5%float) true false)
       (ExtractData.InputFile false "" (Some "1 2 m 3 4 l S"))
     = ([ErrAllBounds], SysExit 1%Z)
  /\ ExtractDataPS.main float_of_string (fun x => x) (fun x => Some x)
       (Arguments (Some 1%float) None (Some 0%float) (Some 5%float) true false)
       (Some "1 2 m 3 4 l S")
     = ([ErrAllBounds], SysExit 1%Z).
Proof.
  split; [reflexivity|].
  apply (partial_bounds_exit_before_reading float_of_string (fun x => x)
           (fun x => Some x)
           (Arguments (Some 1%float) None (Some 0%float) (Some 5%float)
              true false)).
  - reflexivity.
  - right. left. reflexivity.
Defined.

(** X25. A text file that is missing ends both scripts with status 1 and
    never with an exception: after the error about the bounds when the
    command line is refused, and else after the error about the file, which
    follows the line that names the file. *)
Theorem missing_file_exits
    (to_float : string -> option float)
    (log10 : float -> float) (pow10 : float -> option float)
    (args : arguments) (content : string) :
  (ExtractData.main to_float log10 pow10 args
     (ExtractData.InputFile false content None)
   = ([ErrAllBounds], SysExit 1%Z)
   \/ ExtractData.main to_float log10 pow10 args
        (ExtractData.InputFile false content None)
      = ([ReadingFrom; ErrFileNotFound], SysExit 1%Z))
  /\ (ExtractDataPS.main to_float log10 pow10 args None
      = ([ErrAllBounds], SysExit 1%Z)
      \/ ExtractDataPS.main to_float log10 pow10 args None
         = ([ReadingFrom; ErrFileNotFound], SysExit 1%Z)).
Proof.
  unfold ExtractData.main, ExtractDataPS.main, read_limits.
  destruct (truthy (arg_xmin args) || truthy (arg_xmax args)
            || truthy (arg_ymin args) || truthy (arg_ymax args)).
  - destruct (arg_xmin args), (arg_xmax args), (arg_ymin args),
      (arg_ymax args); split; (now left) || (now right).
  - split; now right.
Qed.

(** ** Instances *)

Lemma vec_malformed_pair_skipped_witness :
  mem (nth 2 ["a"; "2"; "m"] EmptyString)
    (move_tokens ++ line_tokens ++ relative_tokens) = true
  /\ float_of_string "a" = None
  /\ ExtractData.step float_of_string ["a"; "2"; "m"]
       (State [] [(1, 1); (2, 2)]%float
          (Bounds (Some 1) (Some 2) (Some 1) (Some 2))%float 2 2) 2
     = State [] [(1, 1); (2, 2)]%float
         (Bounds (Some 1) (Some 2) (Some 1) (Some 2))%float 2 2.
Proof.
  split; [reflexivity|]. split; [reflexivity|].
  apply (vec_malformed_pair_skipped float_of_string ["a"; "2"; "m"]).
  - reflexivity.
  - right. left. reflexivity.
Defined.

Lemma vec_malformed_rectangle_skipped_witness :
  nth 4 ["1"; "2"; "x"; "4"; "re"] EmptyString = "re"
  /\ float_of_string "x" = None
  /\ ExtractData.step float_of_string ["1"; "2"; "x"; "4"; "re"]
       (State [] [(1, 1); (2, 2)]%float
          (Bounds (Some 1) (Some 2) (Some 1) (Some 2))%float 2 2) 4
     = State [] [(1, 1); (2, 2)]%float
         (Bounds (Some 1) (Some 2) (Some 1) (Some 2))%float 2 2.
Proof.
  split; [reflexivity|]. split; [reflexivity|].
  apply (vec_malformed_rectangle_skipped float_of_string
           ["1"; "2"; "x"; "4"; "re"]).
  - reflexivity.
  - right. exists 2. split; [lia | reflexivity].
Defined.

Lemma vec_points_in_bounds_witness :
  line_sets_cursor_first
    (operators float_of_string ["1"; "2"; "m"; "3"; "4"; "l"; "S"]) = false
  /\ all_inside
       (ps_bounds
          (ExtractData.assemble float_of_string
             ["1"; "2"; "m"; "3"; "4"; "l"; "S"]))
       (all_segments
          (ExtractData.assemble float_of_string
             ["1"; "2"; "m"; "3"; "4"; "l"; "S"])).
Proof.
  split; [vm_compute; reflexivity|].
  apply (vec_points_in_bounds float_of_string
           ["1"; "2"; "m"; "3"; "4"; "l"; "S"]).
  vm_compute. reflexivity.
Defined.

Lemma uncalibrated_run_writes_raw_points_witness :
  ps_bounds
    (vec_assemble "0 0 m 1 1 l 2 4 l 3 9 l 4 16 l 5 25 l 6 36 l 7 49 l 8 64 l 9 81 l 10 100 l S 1 2 m 3 4 l S")
  = Bounds (Some 0%float) (Some 10%float) (Some 0%float) (Some 100%float)
  /\ filter_and_write (fun x => x) (fun x => Some x)
       (vec_assemble "0 0 m 1 1 l 2 4 l 3 9 l 4 16 l 5 25 l 6 36 l 7 49 l 8 64 l 9 81 l 10 100 l S 1 2 m 3 4 l S")
       None
     = ([DetectedPageBounds 0 10 0 100; FilteredOut 1; DoneWrote 11],
        Returned
          (Report
             [[(0, 0); (1, 1); (2, 4); (3, 9); (4, 16); (5, 25); (6, 36);
               (7, 49); (8, 64); (9, 81); (10, 100)]%float] 11)).
Proof.
  split; [vm_compute; reflexivity|].
  rewrite (uncalibrated_run_writes_raw_points (fun x => x) (fun x => Some x)
             (vec_assemble "0 0 m 1 1 l 2 4 l 3 9 l 4 16 l 5 25 l 6 36 l 7 49 l 8 64 l 9 81 l 10 100 l S 1 2 m 3 4 l S")
             0 10 0 100).
  - vm_compute. reflexivity.
  - vm_compute. reflexivity.
Defined.

Lemma linear_run_maps_every_point_witness :
  ps_bounds
    (vec_assemble "0 0 m 1 1 l 2 2 l 3 3 l 4 4 l 5 5 l 6 6 l 7 7 l 8 8 l 9 9 l 16 16 l S 1 2 m 3 4 l")
  = Bounds (Some 0%float) (Some 16%float) (Some 0%float) (Some 16%float)
  /\ filter_and_write (fun x => x) (fun x => Some x)
       (vec_assemble "0 0 m 1 1 l 2 2 l 3 3 l 4 4 l 5 5 l 6 6 l 7 7 l 8 8 l 9 9 l 16 16 l S 1 2 m 3 4 l")
       (Some (Limits 0 32 0 (-16) false false))
     = ([DetectedPageBounds 0 16 0 16; FilteredOut 1; DoneWrote 11],
        Returned
          (Report
             [[(0, 0); (2, -1); (4, -2); (6, -3); (8, -4); (10, -5); (12, -6);
               (14, -7); (16, -8); (18, -9); (32, -16)]%float] 11)).
Proof.
  split; [vm_compute; reflexivity|].
  rewrite (linear_run_maps_every_point (fun x => x) (fun x => Some x)
             (vec_assemble "0 0 m 1 1 l 2 2 l 3 3 l 4 4 l 5 5 l 6 6 l 7 7 l 8 8 l 9 9 l 16 16 l S 1 2 m 3 4 l")
             (Limits 0 32 0 (-16) false false) 0 16 0 16).
  - vm_compute. reflexivity.
  - vm_compute. reflexivity.
  - reflexivity.
  - reflexivity.
Defined.

Lemma returned_run_keeps_every_point_witness :
  exists msgs r,
    filter_and_write (fun x => x) (fun x => Some x)
      (vec_assemble "0 0 m 1 1 l 2 2 l 3 3 l 4 4 l 5 5 l 6 6 l 7 7 l 8 8 l 9 9 l 16 16 l S 1 2 m 3 4 l")
      (Some (Limits 1 32 0 (-16) true false))
    = (msgs, Returned r)
    /\ map (@List.length point) (written r) = [11]
    /\ total_points r = 11
    /\ exists first, msgs = first ++ [DoneWrote (total_points r)].
Proof.
  eexists. eexists. split; [vm_compute; reflexivity|].
  apply (returned_run_keeps_every_point (fun x => x) (fun x => Some x)
           (vec_assemble "0 0 m 1 1 l 2 2 l 3 3 l 4 4 l 5 5 l 6 6 l 7 7 l 8 8 l 9 9 l 16 16 l S 1 2 m 3 4 l")
           (Some (Limits 1 32 0 (-16) true false))).
  vm_compute. reflexivity.
Defined.

Lemma comment_is_dropped_witness :
  no_linebreak " 9 9 l" = true
  /\ ends_line (String "010" "3 4 l S") = true
  /\ ExtractData.tokenize
       ("1 2 m " ++ String "%" " 9 9 l" ++ String "010" "3 4 l S")
     = ExtractData.tokenize ("1 2 m " ++ String "010" "3 4 l S")
  /\ ExtractData.tokenize ("1 2 m " ++ String "010" "3 4 l S")
     = ["1"; "2"; "m"; "3"; "4"; "l"; "S"].
Proof.
  split; [reflexivity|]. split; [reflexivity|]. split; [|reflexivity].
  apply (comment_is_dropped "1 2 m " " 9 9 l" (String "010" "3 4 l S"));
    reflexivity.
Defined.
